(** * vkVideoDownloader: a shallow embedding of [vkdownloader.py]

    The script fetches pages, scrapes the video URLs and the title out of
    one script element, asks for a resolution when several are offered and
    downloads the files through a [multiprocessing.Pool].

    Python values are modelled as follows.
    - [str] is a list of Unicode code points ([N]); [bytes] a list of bytes.
    - [int] is [Z].
    - The dictionary [videos] is a [gmap Z str].
    - An exception is a value of [exn]; a call that may raise returns a
      [result].
    - Standard input is the list of the lines still to be read, standard
      output the list of messages printed so far, the file system a
      [gmap] from file names to contents. *)

From Stdlib Require Import ZArith NArith Lia String Ascii.
From stdpp Require Import gmap list sorting.

Local Open Scope N_scope.

(** ** Strings *)

Abbreviation str := (list N).
Abbreviation bytes := (list Byte.byte).

(** An ASCII literal as a Python string. *)
Definition u (s : string) : str :=
  List.map N_of_ascii (list_ascii_of_string s).

Definition dquote : N := 34.
Definition hyphen : N := 45.
Definition slash : N := 47.
Definition backslash : N := 92.
Definition underscore : N := 95.

(** [s] between two double quotes. *)
Definition quoted (s : string) : str := dquote :: u s ++ [dquote].

Definition str_eqb (a b : str) : bool := bool_decide (a = b).

(** [str.isspace] on one character, which is also what [\s] matches in a
    [str] pattern: the complete list of CPython's white space. *)
Definition isspace (c : N) : bool :=
  ((9 <=? c) && (c <=? 13)) || ((28 <=? c) && (c <=? 32))
  || (c =? 0x85) || (c =? 0xA0) || (c =? 0x1680)
  || ((0x2000 <=? c) && (c <=? 0x200A))
  || (c =? 0x2028) || (c =? 0x2029) || (c =? 0x202F) || (c =? 0x205F)
  || (c =? 0x3000).

(** The longest prefix whose characters satisfy [f], and the rest. *)
Fixpoint span (f : N -> bool) (s : str) : str * str :=
  match s with
  | [] => ([], [])
  | c :: s' =>
      if f c then let '(a, b) := span f s' in (c :: a, b) else ([], s)
  end.

Fixpoint lstrip (f : N -> bool) (s : str) : str :=
  match s with
  | [] => []
  | c :: s' => if f c then lstrip f s' else s
  end.

Definition rstrip (f : N -> bool) (s : str) : str :=
  rev (lstrip f (rev s)).

(** [s.strip(chars)], the set [chars] given as a predicate. *)
Definition strip (f : N -> bool) (s : str) : str := rstrip f (lstrip f s).

(** [p] is a prefix of [s]: what is left of [s] after it. *)
Fixpoint lit (p s : str) : option str :=
  match p, s with
  | [], _ => Some s
  | _ :: _, [] => None
  | a :: p', b :: s' => if a =? b then lit p' s' else None
  end.

(** [p in s] *)
Fixpoint contains (p s : str) : bool :=
  match lit p s with
  | Some _ => true
  | None => match s with [] => false | _ :: s' => contains p s' end
  end.

(** ** Exceptions *)

Inductive exn : Type :=
  | IndexError
  | KeyError
  | ValueError
  | TypeError
  | EOFError
  | HTTPError (status : Z)
  | RequestException
  | OSError.

Inductive result (A : Type) : Type :=
  | Ok (a : A)
  | Raise (e : exn).
Arguments Ok {A} a.
Arguments Raise {A} e.

#[global] Instance exn_eq_dec : EqDecision exn.
Proof. solve_decision. Defined.

(** ** The Python runtime

    What the script takes from the interpreter and whose tables are not
    part of the repository: the Unicode database behind [\w] and [\d],
    the NFKC form of [unicodedata.normalize], the built-in [int], and
    which names the built-in [open] accepts for writing. *)

Class PyRuntime := {
  (** [str.isalnum] on one character; [\w] is this or an underscore *)
  isalnum : N -> bool;
  (** [str.isdecimal] on one character: what [\d] matches *)
  isdecimal : N -> bool;
  (** [int(s)]; [None] stands for [ValueError] *)
  py_int : str -> option Z;
  (** [unicodedata.normalize] to the form NFKC *)
  normalize_NFKC : str -> str;
  (** the exception that [open] raises when the file of that name cannot
      be opened for writing; [None] when it opens *)
  open_error : str -> option exn
}.

(** ** The file name of a title (lines 59-61 of [get_videos]) *)

Section Sanitize.
Context `{PyRuntime}.

(** [\w] *)
Definition is_word (c : N) : bool := isalnum c || (c =? underscore).

(** the class [[\w\s-]] whose complement line 60 deletes *)
Definition kept (c : N) : bool := is_word c || isspace c || (c =? hyphen).

(** the class [[-\s]] of line 61 *)
Definition hyphen_or_space (c : N) : bool := (c =? hyphen) || isspace c.

(** The substitution of line 61: every maximal run of the class becomes
    one hyphen. [in_run] tells that the previous character was in the
    class, so that the hyphen of this run is already written. *)
Fixpoint sub_runs (in_run : bool) (s : str) : str :=
  match s with
  | [] => []
  | c :: s' =>
      if hyphen_or_space c
      then (if in_run then sub_runs true s' else hyphen :: sub_runs true s')
      else c :: sub_runs false s'
  end.

(** the characters that line 61 strips from both ends *)
Definition hyphen_or_underscore (c : N) : bool :=
  (c =? hyphen) || (c =? underscore).

Definition sanitize (name : str) : str :=
  let name := normalize_NFKC name in
  let name := List.filter (fun c => kept c) name in
  strip hyphen_or_underscore (sub_runs false name).
End Sanitize.

(** ** Monadic plumbing for [result] *)

#[global] Instance result_ret : MRet result := fun _ a => Ok a.
#[global] Instance result_bind : MBind result := fun _ _ f r =>
  match r with Ok a => f a | Raise e => Raise e end.

(** ** Pages *)

(** One tag of the parsed page: its name, its attributes and its text
    ([e.text]). *)
Record element : Type := {
  tag_name : str;
  attrs : list (str * str);
  text : str
}.

(** The attribute dictionary of a tag read at [key]. *)
Fixpoint get_attr (key : str) (l : list (str * str)) : option str :=
  match l with
  | [] => None
  | (k, v) :: l' => if str_eqb k key then Some v else get_attr key l'
  end.

(** [soup.find_all(name, {key: value})] over the tags of the document, in
    document order. *)
Definition find_all (name key value : str) (doc : list element)
  : list element :=
  List.filter
    (fun e => str_eqb (tag_name e) name
              && match get_attr key (attrs e) with
                 | Some v => str_eqb v value
                 | None => false
                 end)
    doc.

(** What a GET answers. [soup] is the list of the tags of the parsed
    content, [content_length] the header of that name when there is one,
    [iter_content] the chunks the stream delivers and [stream_error] the
    exception that ends the stream early, if any. *)
Record response : Type := {
  status_code : Z;
  content_length : option str;
  soup : list element;
  iter_content : list bytes;
  stream_error : option exn
}.

(** [session.get] *)
Abbreviation Session := (str -> result response).

(** ** Console and files *)

Inductive message : Type :=
  | GettingVideos (path : str)
  | NoVideosFound
  | SelectResolution (options : list Z)
  | InvalidResolution
  | InvalidInput
  | Downloading.

Record console : Type := {
  stdin : list str;
  stdout : list message
}.

Definition print (m : message) (c : console) : console :=
  {| stdin := stdin c; stdout := stdout c ++ [m] |}.

(** ** The two patterns of [get_videos] *)

Section Extraction.
Context `{PyRuntime}.

(** The common tail of both patterns, from the quote that closes the key
    on: a colon, white space, and between two quotes the value, of one
    character at least and without a quote. The result is the captured
    value and what follows the match. Every repetition is followed by a
    character outside its class, so the greedy match is the only one. *)
Definition match_value (s : str) : option (str * str) :=
  s1 ← lit (dquote :: u ":") s;
  s2 ← lit [dquote] (span isspace s1).2;
  let '(value, s3) := span (fun c => negb (c =? dquote)) s2 in
  match value with
  | [] => None
  | _ :: _ => s4 ← lit [dquote] s3; Some (value, s4)
  end.

(** [pattern_url] at the head of [s]: both groups and the rest. *)
Definition pattern_url (s : str) : option ((str * str) * str) :=
  s1 ← lit (dquote :: u "url") s;
  let '(number, s2) := span isdecimal s1 in
  match number with
  | [] => None
  | _ :: _ => '(value, s3) ← match_value s2; Some ((number, value), s3)
  end.

(** [pattern_name] at the head of [s]. *)
Definition pattern_name (s : str) : option (str * str) :=
  s1 ← lit (dquote :: u "title") s;
  match_value s1.

(** [re.findall]: the matches from left to right, without overlap. After
    a match the scan resumes where it ended, which [skip] counts down. *)
Fixpoint findall_from {G} (pattern : str -> option (G * str))
    (skip : nat) (s : str) {struct s} : list G :=
  match s with
  | [] => []
  | _ :: s' =>
      match skip with
      | S k => findall_from pattern k s'
      | O =>
          match pattern s with
          | Some (g, rest) =>
              g :: findall_from pattern
                     (length s - length rest - 1)%nat s'
          | None => findall_from pattern 0%nat s'
          end
      end
  end.

Definition findall {G} (pattern : str -> option (G * str)) (s : str)
  : list G :=
  findall_from pattern 0%nat s.

(** [{int(number): value for number, value in matches_url}] *)
Fixpoint dict_of (matches : list (str * str)) (d : gmap Z str)
  : result (gmap Z str) :=
  match matches with
  | [] => Ok d
  | (number, value) :: rest =>
      match py_int number with
      | None => Raise ValueError
      | Some n => dict_of rest (<[n := value]> d)
      end
  end.

(** The script elements [get_videos] keeps (lines 43-44). *)
Definition elements_of (doc : list element) : list element :=
  List.filter (fun e => contains (u "al_video.php") (text e))
              (find_all (u "script") (u "type") (u "module") doc).

Definition get_videos (session : Session) (path : str) (c : console)
  : result (gmap Z str * option str) * console :=
  let c := print (GettingVideos path) c in
  match session path with
  | Raise e => (Raise e, c)
  | Ok response =>
      let elements := elements_of (soup response) in
      if negb (length elements =? 1)%nat then (Ok (∅, None), c)
      else
        match elements with
        | [] => (Raise IndexError, c)
        | e :: _ =>
            let matches_url := findall pattern_url (text e) in
            match dict_of matches_url ∅ with
            | Raise ex => (Raise ex, c)
            | Ok videos =>
                match findall pattern_name (text e) with
                | [] => (Raise IndexError, c)
                | name :: _ =>
                    (Ok (videos, Some (sanitize name ++ u ".mp4")), c)
                end
            end
        end
  end.
End Extraction.

(** ** Choosing a resolution *)

Section Selection.
Context `{PyRuntime}.

(** The loop of [get_resolution] over the lines of standard input still
    unread: each round prints the prompt and reads one line with
    [input()], which raises [EOFError] when there is none. [out] is what
    has been printed so far. *)
Fixpoint get_resolution_loop (options : list Z) (lines : list str)
    (out : list message) : result Z * console :=
  let out := out ++ [SelectResolution options] in
  match lines with
  | [] => (Raise EOFError, {| stdin := []; stdout := out |})
  | line :: rest =>
      match py_int (strip isspace line) with
      | Some resol =>
          if bool_decide (resol ∈ options)
          then (Ok resol, {| stdin := rest; stdout := out |})
          else get_resolution_loop options rest (out ++ [InvalidResolution])
      | None => get_resolution_loop options rest (out ++ [InvalidInput])
      end
  end.

Definition get_resolution (options : list Z) (c : console)
  : result Z * console :=
  get_resolution_loop options (stdin c) (stdout c).
End Selection.

(** ** The list of downloads (lines 141-156 of [main]) *)

(** [[filename, formatted_url]]; [filename] is what [get_videos] returned,
    which may be [None]. *)
Definition job : Type := option str * str.

(** The substitution of lines 151 and 155: a backslash followed by a
    slash becomes a slash. *)
Fixpoint unescape (s : str) : str :=
  match s with
  | [] => []
  | c :: s' =>
      match s' with
      | d :: s'' =>
          if (c =? backslash) && (d =? slash)
          then slash :: unescape s''
          else c :: unescape s'
      | [] => [c]
      end
  end.

(** [sorted(videos.keys())] *)
Definition sorted_keys (videos : gmap Z str) : list Z :=
  merge_sort Z.le (map_to_list videos).*1.

Section Pages.
Context `{PyRuntime}.

(** The body of the loop over [paths] for one page whose extraction
    returned [videos] and [filename]: the downloads appended to
    [download_files], or [None] when the page is skipped. *)
Definition main_body (videos : gmap Z str) (filename : option str)
    (c : console) : result (option job) * console :=
  if bool_decide (size videos = 0%nat)
  then (Ok None, print NoVideosFound c)
  else if bool_decide (1 < size videos)%nat
  then
    match get_resolution (sorted_keys videos) c with
    | (Raise e, c) => (Raise e, c)
    | (Ok selected_resolution, c) =>
        match videos !! selected_resolution with
        | None => (Raise KeyError, c)
        | Some url => (Ok (Some (filename, unescape url)), c)
        end
    end
  else
    match (map_to_list videos).*2 with
    | [] => (Raise IndexError, c)
    | url :: _ => (Ok (Some (filename, unescape url)), c)
    end.

(** The loop over [paths]. An exception ends it: [main] has no handler. *)
Fixpoint main_loop (session : Session) (paths : list str) (c : console)
    (download_files : list job) : result (list job) * console :=
  match paths with
  | [] => (Ok download_files, c)
  | path :: paths' =>
      match get_videos session path c with
      | (Raise e, c) => (Raise e, c)
      | (Ok (videos, filename), c) =>
          match main_body videos filename c with
          | (Raise e, c) => (Raise e, c)
          | (Ok None, c) => main_loop session paths' c download_files
          | (Ok (Some j), c) =>
              main_loop session paths' c (download_files ++ [j])
          end
      end
  end.
End Pages.

(** ** Downloading one file *)

(** [r.raise_for_status()]: statuses 400 to 599 raise. *)
Definition raise_for_status (r : response) : result unit :=
  if (400 <=? status_code r)%Z && (status_code r <? 600)%Z
  then Raise (HTTPError (status_code r))
  else Ok tt.

(** The loop over [r.iter_content]: every chunk that is not empty is
    appended to the file. *)
Fixpoint write_chunks (chunks : list bytes) (f : bytes) : bytes :=
  match chunks with
  | [] => f
  | chunk :: rest =>
      write_chunks rest (match chunk with [] => f | _ :: _ => f ++ chunk end)
  end.

Section Download.
Context `{PyRuntime}.

(** Line 77: [int] of the length header, or of 0 without one. *)
Definition total_size (r : response) : option Z :=
  match content_length r with
  | None => Some 0%Z
  | Some h => py_int h
  end.

(** [download_file] as a transformer of the file system. Opening for
    writing raises for the names that [open] refuses, and otherwise
    creates the file or empties it; the writes to the open file are taken
    to succeed. *)
Definition download_file (session : Session) (filename : option str)
    (url : str) (fs : gmap str bytes) : result unit * gmap str bytes :=
  match session url with
  | Raise e => (Raise e, fs)
  | Ok r =>
      match raise_for_status r with
      | Raise e => (Raise e, fs)
      | Ok _ =>
          match total_size r with
          | None => (Raise ValueError, fs)
          | Some _ =>
              match filename with
              | None => (Raise TypeError, fs)
              | Some name =>
                  match open_error name with
                  | Some e => (Raise e, fs)
                  | None =>
                      let fs :=
                        <[name := write_chunks (iter_content r) []]> fs in
                      match stream_error r with
                      | Some e => (Raise e, fs)
                      | None => (Ok tt, fs)
                      end
                  end
              end
          end
      end
  end.

Definition worker (session : Session) (params : job) (fs : gmap str bytes)
  : result unit * gmap str bytes :=
  download_file session params.1 params.2 fs.
End Download.

(** ** [multiprocessing.Pool.map]

    The pool cuts the iterable into chunks, hands every chunk to a worker
    process that applies the function to its elements in turn
    ([mapstar]), and collects one answer per chunk. The processes share
    the state [S] (here the file system); [order] is the order in which
    the chunks are taken up and answered, chunk by chunk. *)

Section Pool.
Context {A B S : Type}.
Variable func : A -> S -> result B * S.

(** [list(map(func, chunk))]: the first exception ends the chunk. *)
Fixpoint mapstar (chunk : list A) (st : S) : result (list B) * S :=
  match chunk with
  | [] => (Ok [], st)
  | x :: rest =>
      match func x st with
      | (Raise e, st) => (Raise e, st)
      | (Ok b, st) =>
          match mapstar rest st with
          | (Raise e, st) => (Raise e, st)
          | (Ok bs, st) => (Ok (b :: bs), st)
          end
      end
  end.

(** [chunksize, extra = divmod(len(iterable), len(self._pool) * 4)],
    one more when [extra] is not zero. *)
Definition chunksize_of (len processes : nat) : nat :=
  let chunksize := (len / (processes * 4))%nat in
  if (len mod (processes * 4) =? 0)%nat
  then chunksize
  else Datatypes.S chunksize.

(** [Pool._get_tasks]: slices of [size] elements until one is empty.
    [fuel] bounds the number of slices. *)
Fixpoint get_tasks (fuel size : nat) (it : list A) : list (list A) :=
  match fuel with
  | O => []
  | Datatypes.S fuel' =>
      match take size it with
      | [] => []
      | x => x :: get_tasks fuel' size (drop size it)
      end
  end.

(** The chunks run in the order [order]: the answer of each, tagged with
    its index. *)
Fixpoint run_tasks (order : list nat) (tasks : list (list A)) (st : S)
  : list (nat * result (list B)) * S :=
  match order with
  | [] => ([], st)
  | i :: order' =>
      match tasks !! i with
      | None => run_tasks order' tasks st
      | Some chunk =>
          let '(r, st) := mapstar chunk st in
          let '(rs, st) := run_tasks order' tasks st in
          ((i, r) :: rs, st)
      end
  end.

(** [MapResult._set] stores the first exception that arrives. *)
Fixpoint first_exception (answers : list (nat * result (list B)))
  : option exn :=
  match answers with
  | [] => None
  | (_, Raise e) :: _ => Some e
  | (_, Ok _) :: rest => first_exception rest
  end.

Fixpoint answer_of (i : nat) (answers : list (nat * result (list B)))
  : list B :=
  match answers with
  | [] => []
  | (j, r) :: rest =>
      if (i =? j)%nat
      then match r with Ok bs => bs | Raise _ => [] end
      else answer_of i rest
  end.

(** The value of a map without failure: the answers in the order of the
    chunks. *)
Definition value_of (chunks : nat) (answers : list (nat * result (list B)))
  : list B :=
  concat (List.map (fun i => answer_of i answers) (seq 0 chunks)).

(** The chunks [Pool._map_async] makes of the iterable. *)
Definition chunks_of (processes : nat) (iterable : list A) : list (list A) :=
  let len := length iterable in
  let chunksize :=
    if (len =? 0)%nat then 0%nat else chunksize_of len processes in
  get_tasks len chunksize iterable.

(** [pool.map(func, iterable)]: the list of the results, or the first
    exception that arrived. *)
Definition pool_map (processes : nat) (order : list nat)
    (iterable : list A) (st : S) : result (list B) * S :=
  let tasks := chunks_of processes iterable in
  let '(answers, st) := run_tasks order tasks st in
  match first_exception answers with
  | Some e => (Raise e, st)
  | None => (Ok (value_of (length tasks) answers), st)
  end.
End Pool.

(** ** [main] *)

Section Main.
Context `{PyRuntime}.

(** Lines 158-161: the downloads of [download_files] on a pool of four
    processes. *)
Definition download_all (session : Session) (order : list nat)
    (download_files : list job) (fs : gmap str bytes)
  : result (list unit) * gmap str bytes :=
  pool_map (worker session) 4 order download_files fs.

Definition main (session : Session) (order : list nat) (paths : list str)
    (c : console) (fs : gmap str bytes)
  : result unit * console * gmap str bytes :=
  match main_loop session paths c [] with
  | (Raise e, c) => (Raise e, c, fs)
  | (Ok download_files, c) =>
      let c := print Downloading c in
      match download_all session order download_files fs with
      | (Raise e, fs) => (Raise e, c, fs)
      | (Ok _, fs) => (Ok tt, c, fs)
      end
  end.
End Main.

(** ** An excerpt of the runtime

    A [PyRuntime] that agrees with CPython 3.11 on the strings made of
    ASCII characters, the Russian alphabet (U+0401, U+0410 to U+044F,
    U+0451), the conjoining Hangul jamo (U+1100 to U+1112, U+1161 to
    U+1175, U+11A8 to U+11C2) and the Hangul syllables (U+AC00 to U+D7A3).
    Its [open] is that of Linux in a writable directory without
    subdirectory, for the names without slash. The examples below are
    computed with it. *)

Module Excerpt.
Definition between (lo hi c : N) : bool := (lo <=? c) && (c <=? hi).

Definition alnum (c : N) : bool :=
  between 48 57 c || between 65 90 c || between 97 122 c
  || (c =? 0x401) || between 0x410 0x44F c || (c =? 0x451)
  || between 0x1100 0x1112 c || between 0x1161 0x1175 c
  || between 0x11A8 0x11C2 c || between 0xAC00 0xD7A3 c.

Definition decimal (c : N) : bool := between 48 57 c.

(** The white space [int] skips at both ends: of the ASCII characters
    only tab to carriage return and the space. *)
Definition int_space (c : N) : bool :=
  between 9 13 c || (c =? 32) || ((128 <=? c) && isspace c).

(** Decimal digits, single underscores allowed between two of them: the
    number of digits read and their value. *)
Fixpoint digits (s : str) (after_digit : bool) (count : N) (acc : Z)
  : option (N * Z) :=
  match s with
  | [] => if after_digit then Some (count, acc) else None
  | c :: s' =>
      if c =? underscore
      then (if after_digit then digits s' false count acc else None)
      else if decimal c
           then digits s' true (count + 1) (acc * 10 + Z.of_N (c - 48))
           else None
  end.

(** [int(s)], with the default limit of 4300 digits. *)
Definition int (s : str) : option Z :=
  let s := strip int_space s in
  let '(negative, s) :=
    match s with
    | c :: s' =>
        if c =? 45 then (true, s')
        else if c =? 43 then (false, s') else (false, s)
    | [] => (false, s)
    end in
  '(count, n) ← digits s false 0 0%Z;
  if 4300 <? count then None else Some (if negative then (- n)%Z else n).

(** Hangul composition: a leading consonant and a vowel, or a syllable
    without trailing consonant and a trailing consonant. *)
Definition compose (last ch : N) : option N :=
  if between 0x1100 0x1112 last && between 0x1161 0x1175 ch
  then Some (0xAC00 + ((last - 0x1100) * 21 + (ch - 0x1161)) * 28)
  else if between 0xAC00 0xD7A3 last && ((last - 0xAC00) mod 28 =? 0)
          && between 0x11A8 0x11C2 ch
  then Some (last + (ch - 0x11A7))
  else None.

Fixpoint normalize_from (last : N) (s : str) : str :=
  match s with
  | [] => [last]
  | ch :: s' =>
      match compose last ch with
      | Some c => normalize_from c s'
      | None => last :: normalize_from ch s'
      end
  end.

Definition normalize (s : str) : str :=
  match s with
  | [] => []
  | c :: s' => normalize_from c s'
  end.

(** The number of bytes of a character in the encoding of the file
    names, UTF-8. *)
Definition utf8_bytes (c : N) : N :=
  if c <? 0x80 then 1 else if c <? 0x800 then 2
  else if c <? 0x10000 then 3 else 4.

Definition utf8_length (s : str) : N :=
  fold_right (fun c n => utf8_bytes c + n) 0 s.

(** [open] for writing: a name with a null character is a [ValueError];
    the empty name, the directories [.] and [..], a name of more than 255
    bytes and, here, a name with a slash are refused by the system. *)
Definition open_for_writing (name : str) : option exn :=
  if existsb (N.eqb 0) name then Some ValueError
  else if bool_decide (name = []) || bool_decide (name = [46])
          || bool_decide (name = [46; 46])
          || existsb (N.eqb slash) name
          || (255 <? utf8_length name)
  then Some OSError
  else None.

Definition runtime : PyRuntime := {|
  isalnum := alnum;
  isdecimal := decimal;
  py_int := int;
  normalize_NFKC := normalize;
  open_error := open_for_writing
|}.
End Excerpt.

(** ** Pages and servers of the examples *)

Module Examples.
Definition script (body : str) : element :=
  {| tag_name := u "script";
     attrs := [(u "type", u "module")];
     text := u "ajax.post('al_video.php', " ++ body |}.

Definition page (doc : list element) : response :=
  {| status_code := 200; content_length := None; soup := doc;
     iter_content := []; stream_error := None |}.

(** The page of the scenario: two URLs and the title [My Clip!]. *)
Definition clip : list element :=
  [ script (quoted "url720" ++ u ": " ++ quoted "http:\/\/x\/a.mp4"
            ++ u ", " ++ quoted "url1080" ++ u ": "
            ++ quoted "http:\/\/x\/b.mp4" ++ u ", "
            ++ quoted "title" ++ u ": " ++ quoted "My Clip!") ].

Definition serve (doc : list element) : Session := fun _ => Ok (page doc).

Definition a_url : str :=
  quoted "url720" ++ u ": " ++ quoted "http:\/\/x\/a.mp4".

(** Two metadata blocks on one page. *)
Definition twice : list element := [ script a_url; script a_url ].

(** One metadata block with a URL and no title. *)
Definition untitled : list element := [ script a_url ].

(** One metadata block with neither URL nor title. *)
Definition bare : list element := [ script [] ].

(** One metadata block whose title has no word character. *)
Definition bang : list element :=
  [ script (a_url ++ u ", " ++ quoted "title" ++ u ": " ++ quoted "!!!") ].

Definition quiet : console := {| stdin := []; stdout := [] |}.

Definition answer (status : Z) (chunks : list bytes) : response :=
  {| status_code := status; content_length := None; soup := [];
     iter_content := chunks; stream_error := None |}.

(** A server that has every file but [http://x/a.mp4]. *)
Definition lacks_a : Session := fun url =>
  if str_eqb url (u "http://x/a.mp4")
  then Ok (answer 404 [])
  else Ok (answer 200 [[Byte.x01]]).

Definition job_a : job := (Some (u "a.mp4"), u "http://x/a.mp4").
Definition job_b : job := (Some (u "b.mp4"), u "http://x/b.mp4").
Definition job_c : job := (Some (u "c.mp4"), u "http://x/c.mp4").

(** A file system that has a file [a.mp4] already. *)
Definition disk : gmap str bytes := {[ u "a.mp4" := [Byte.x2a] ]}.
End Examples.

(** ** Predicates of the specification *)

(** The class [[A-Za-z0-9_\- ]]. *)
Definition in_ascii_class (c : N) : bool :=
  Excerpt.between 65 90 c || Excerpt.between 97 122 c
  || Excerpt.between 48 57 c
  || (c =? underscore) || (c =? hyphen) || (c =? 32).

(** No hyphen is followed by a hyphen. *)
Fixpoint no_double_hyphen (s : str) : bool :=
  match s with
  | [] => true
  | c :: s' =>
      match s' with
      | [] => true
      | d :: _ => negb ((c =? hyphen) && (d =? hyphen)) && no_double_hyphen s'
      end
  end.

(** The characters of a file name: a hyphen, or a word character ([\w])
    that is no white space. *)
Definition name_char `{PyRuntime} (c : N) : Prop :=
  c = hyphen \/ (is_word c = true /\ isspace c = false /\ c <> hyphen).

(** [s] begins, or ends, with a character of the set [f]. *)
Definition begins_with (f : N -> bool) (s : str) : bool :=
  match head s with Some c => f c | None => false end.

Definition ends_with (f : N -> bool) (s : str) : bool :=
  match last s with Some c => f c | None => false end.

(** [get_resolution] turns the line down: it is no integer, or an integer
    that is not among the options. *)
Definition rejected `{PyRuntime} (options : list Z) (line : str) : Prop :=
  forall n, py_int (strip isspace line) = Some n -> n ∉ options.

(** What [get_resolution] answers to a line it turns down. *)
Definition rejection `{PyRuntime} (line : str) : message :=
  match py_int (strip isspace line) with
  | Some _ => InvalidResolution
  | None => InvalidInput
  end.

(** What [get_resolution] prints while it turns down the lines [lines]:
    the prompt and the rejection, for each. *)
Definition rounds `{PyRuntime} (options : list Z) (lines : list str)
  : list message :=
  flat_map (fun line => [SelectResolution options; rejection line]) lines.

(** The call of [func] on [x] returns in some state, or raises [e] in some
    state. *)
Definition succeeds {A B S} (func : A -> S -> result B * S) (x : A) : Prop :=
  exists st b st', func x st = (Ok b, st').

Definition fails_with {A B S} (func : A -> S -> result B * S) (x : A)
    (e : exn) : Prop :=
  exists st st', func x st = (Raise e, st').

(** A letter or digit of a file name: an alphanumeric character, which the
    tables class neither as white space nor as hyphen or underscore. *)
Definition letter `{PyRuntime} (c : N) : bool :=
  isalnum c && negb (hyphen_or_space c) && negb (c =? underscore).

(** How a page writes a URL inside its script: a backslash before every
    slash. *)
Fixpoint escape_slashes (s : str) : str :=
  match s with
  | [] => []
  | c :: s' =>
      if c =? slash
      then backslash :: slash :: escape_slashes s'
      else c :: escape_slashes s'
  end.

(** The value of the last of [matches] whose number [int] reads as [n]. *)
Fixpoint last_value `{PyRuntime} (n : Z) (matches : list (str * str))
  : option str :=
  match matches with
  | [] => None
  | (number, value) :: rest =>
      match last_value n rest with
      | Some v => Some v
      | None =>
          if bool_decide (py_int number = Some n) then Some value else None
      end
  end.

(** ** A site for the examples of whole runs *)

Module Site.
(** One metadata block with one URL and the title [t]. *)
Definition single : list element :=
  [ Examples.script (Examples.a_url ++ u ", " ++ quoted "title" ++ u ": "
                     ++ quoted "t") ].

(** The page [good] has one video, the page [none] has no metadata
    block, every other page has a block without title; the file
    [http://x/a.mp4] holds two chunks. *)
Definition session : Session := fun path =>
  if str_eqb path (u "good") then Ok (Examples.page single)
  else if str_eqb path (u "none") then Ok (Examples.page [])
  else if str_eqb path (u "http://x/a.mp4")
  then Ok (Examples.answer 200 [[Byte.x01; Byte.x02]; []; [Byte.x03]])
  else Ok (Examples.page Examples.untitled).

(** A server whose length header is no number. *)
Definition garbled : Session := fun _ =>
  Ok {| status_code := 200; content_length := Some (u "many"); soup := [];
        iter_content := [[Byte.x01]]; stream_error := None |}.
End Site.

(** The download [j] is that of the page [path]: its file name is the one
    that [get_videos] returns for the page, a sanitized title followed by
    [.mp4], and its URL is the unescaped value of one of the resolutions
    that [get_videos] returns for the page. *)
Definition from_page `{PyRuntime} (session : Session) (path : str) (j : job)
  : Prop :=
  exists videos name r raw c,
    (get_videos session path c).1
    = Ok (videos, Some (sanitize name ++ u ".mp4"))
    /\ j.1 = Some (sanitize name ++ u ".mp4")
    /\ videos !! r = Some raw
    /\ j.2 = unescape raw.

Definition is_ok {A} (r : result A) : bool :=
  match r with Ok _ => true | Raise _ => false end.

(** The elements of a chunk on which the function is called: those up to
    the first for which it raises, that one included. [ok] tells for
    which elements it returns. *)
Fixpoint attempted {A} (ok : A -> bool) (chunk : list A) : list A :=
  match chunk with
  | [] => []
  | x :: rest => if ok x then x :: attempted ok rest else [x]
  end.

(** The downloads that the pool makes of [download_files]: of every chunk,
    those up to the first that fails. Whether a download fails does not
    depend on the files. *)
Definition made `{PyRuntime} (session : Session) (download_files : list job)
  : list job :=
  concat (List.map (attempted (fun params =>
                                 is_ok (worker session params ∅).1))
            (chunks_of 4 download_files)).

(** * Theorems *)

(** ** Stripping *)

Section Strip.
Variable f : N -> bool.

Lemma lstrip_suffix (s : str) : exists a, s = a ++ lstrip f s.
Proof.
  induction s as [|c s [a IH]]; simpl.
  - now exists [].
  - destruct (f c).
    + exists (c :: a). simpl. now f_equal.
    + now exists [].
Qed.

Lemma lstrip_head (s : str) (c : N) :
  head (lstrip f s) = Some c -> f c = false.
Proof.
  induction s as [|d s IH]; simpl; [discriminate|].
  destruct (f d) eqn:E; [exact IH|].
  simpl. intros [= <-]. exact E.
Qed.

Lemma lstrip_id (s : str) :
  (forall c, head s = Some c -> f c = false) -> lstrip f s = s.
Proof.
  destruct s as [|c s]; simpl; [reflexivity|].
  intros Hc. now rewrite (Hc c eq_refl).
Qed.

Lemma rstrip_prefix (s : str) : exists b, s = rstrip f s ++ b.
Proof.
  unfold rstrip. destruct (lstrip_suffix (rev s)) as [a Ha].
  exists (rev a). rewrite <- rev_app_distr, <- Ha. now rewrite rev_involutive.
Qed.

Lemma last_rev_head (s : str) : last (rev s) = head s.
Proof. destruct s as [|c s]; simpl; [reflexivity|]. apply last_snoc. Qed.

Lemma head_rev_last (s : str) : head (rev s) = last s.
Proof. rewrite <- (rev_involutive s) at 2. now rewrite last_rev_head. Qed.

Lemma rstrip_last (s : str) (c : N) :
  last (rstrip f s) = Some c -> f c = false.
Proof. unfold rstrip. rewrite last_rev_head. apply lstrip_head. Qed.

Lemma rstrip_id (s : str) :
  (forall c, last s = Some c -> f c = false) -> rstrip f s = s.
Proof.
  intros Hc. unfold rstrip. rewrite lstrip_id.
  - apply rev_involutive.
  - intros c. rewrite head_rev_last. apply Hc.
Qed.

Lemma strip_infix (s : str) : exists a b, s = a ++ strip f s ++ b.
Proof.
  unfold strip. destruct (lstrip_suffix s) as [a Ha].
  destruct (rstrip_prefix (lstrip f s)) as [b Hb].
  exists a, b. now rewrite <- Hb.
Qed.

Lemma strip_last (s : str) (c : N) :
  last (strip f s) = Some c -> f c = false.
Proof. apply rstrip_last. Qed.

Lemma strip_head (s : str) (c : N) :
  head (strip f s) = Some c -> f c = false.
Proof.
  unfold strip. destruct (rstrip_prefix (lstrip f s)) as [b Hb].
  intros Hc. apply (lstrip_head s). rewrite Hb.
  destruct (rstrip f (lstrip f s)); [discriminate|exact Hc].
Qed.

Lemma strip_id (s : str) :
  (forall c, head s = Some c -> f c = false) ->
  (forall c, last s = Some c -> f c = false) ->
  strip f s = s.
Proof.
  intros Hh Hl. unfold strip. rewrite (lstrip_id s Hh). now apply rstrip_id.
Qed.

Lemma strip_idempotent (s : str) : strip f (strip f s) = strip f s.
Proof. apply strip_id; [apply strip_head | apply strip_last]. Qed.
End Strip.

(** ** Double hyphens *)

Lemma no_double_hyphen_tail (c : N) (s : str) :
  no_double_hyphen (c :: s) = true -> no_double_hyphen s = true.
Proof.
  simpl. destruct s as [|d s]; [reflexivity|].
  intros [_ Hs]%andb_true_iff. exact Hs.
Qed.

Lemma no_double_hyphen_app_r (a s : str) :
  no_double_hyphen (a ++ s) = true -> no_double_hyphen s = true.
Proof.
  induction a as [|c a IH]; [trivial|].
  intros Hs. apply IH. exact (no_double_hyphen_tail _ _ Hs).
Qed.

Lemma no_double_hyphen_app_l (s b : str) :
  no_double_hyphen (s ++ b) = true -> no_double_hyphen s = true.
Proof.
  induction s as [|c s IH]; [reflexivity|].
  destruct s as [|d s]; [reflexivity|].
  change ((c :: d :: s) ++ b) with (c :: d :: (s ++ b)).
  change (no_double_hyphen (c :: d :: s ++ b))
    with (negb ((c =? hyphen) && (d =? hyphen))
          && no_double_hyphen ((d :: s) ++ b)).
  change (no_double_hyphen (c :: d :: s))
    with (negb ((c =? hyphen) && (d =? hyphen)) && no_double_hyphen (d :: s)).
  intros [Hc Hs]%andb_true_iff. rewrite Hc. simpl. apply IH. exact Hs.
Qed.

Lemma no_double_hyphen_infix (a s b : str) :
  no_double_hyphen (a ++ s ++ b) = true -> no_double_hyphen s = true.
Proof.
  intros Hs. apply no_double_hyphen_app_r in Hs.
  now apply no_double_hyphen_app_l in Hs.
Qed.

(** ** The file name of a title *)

Section SanitizeFacts.
Context `{PyRuntime}.

Lemma hyphen_or_space_hyphen : hyphen_or_space hyphen = true.
Proof. reflexivity. Qed.

Lemma kept_outside_runs (c : N) :
  kept c = true -> hyphen_or_space c = false -> name_char c.
Proof.
  unfold kept, hyphen_or_space, name_char.
  intros Hk [Hh Hs]%orb_false_iff. right.
  rewrite Hs, Hh, !orb_false_r in Hk.
  repeat split; trivial. now apply N.eqb_neq.
Qed.

Lemma name_char_kept (c : N) : name_char c -> kept c = true.
Proof.
  unfold name_char, kept. intros [->|(Hw & _ & _)].
  - apply orb_true_r.
  - now rewrite Hw.
Qed.

Lemma name_char_runs (c : N) :
  name_char c -> hyphen_or_space c = true -> c = hyphen.
Proof.
  unfold name_char, hyphen_or_space. intros [->|(_ & Hs & Hh)]; [trivial|].
  rewrite Hs, orb_false_r. intros E%N.eqb_eq. contradiction.
Qed.

Lemma sub_runs_chars (in_run : bool) (s : str) :
  Forall (fun c => kept c = true) s ->
  Forall name_char (sub_runs in_run s).
Proof.
  intros Hs. revert in_run.
  induction Hs as [|c s Hc Hs IH]; intros in_run; simpl; [constructor|].
  destruct (hyphen_or_space c) eqn:E.
  - destruct in_run; [apply IH|].
    constructor; [now left | apply IH].
  - constructor; [now apply kept_outside_runs | apply IH].
Qed.

(** After a character of the class the output does not go on with a
    hyphen, and the output never has two hyphens in a row. *)
Lemma sub_runs_no_double (in_run : bool) (s : str) :
  no_double_hyphen (sub_runs in_run s) = true
  /\ (in_run = true -> head (sub_runs in_run s) <> Some hyphen).
Proof.
  revert in_run. induction s as [|c s IH]; intros in_run; simpl.
  - split; [reflexivity | discriminate].
  - destruct (hyphen_or_space c) eqn:E.
    + destruct in_run.
      * apply IH.
      * split; [|discriminate].
        destruct (IH true) as [Hn Hh]. specialize (Hh eq_refl).
        destruct (sub_runs true s) as [|d t] eqn:Et; [reflexivity|].
        change (negb ((hyphen =? hyphen) && (d =? hyphen))
                && no_double_hyphen (d :: t) = true).
        rewrite Hn, andb_true_r.
        destruct (N.eqb_spec d hyphen) as [->|_]; [now elim Hh|reflexivity].
    + assert (c <> hyphen) as Hc.
      { intros ->. now rewrite hyphen_or_space_hyphen in E. }
      split; [|intros _ [= ?]; contradiction].
      destruct (IH false) as [Hn _].
      destruct (sub_runs false s) as [|d t] eqn:Et; [reflexivity|].
      change (negb ((c =? hyphen) && (d =? hyphen))
              && no_double_hyphen (d :: t) = true).
      rewrite Hn, andb_true_r.
      apply N.eqb_neq in Hc. now rewrite Hc.
Qed.

(** On a string of name characters without double hyphen the
    substitution changes nothing. *)
Lemma sub_runs_id (in_run : bool) (s : str) :
  Forall name_char s ->
  no_double_hyphen s = true ->
  (in_run = true -> head s <> Some hyphen) ->
  sub_runs in_run s = s.
Proof.
  intros Hs. revert in_run.
  induction Hs as [|c s Hc Hs IH]; intros in_run Hn Hh; simpl; [reflexivity|].
  destruct (hyphen_or_space c) eqn:E.
  - apply (name_char_runs c Hc) in E. subst c.
    destruct in_run; [now elim Hh|].
    f_equal. apply IH.
    + exact (no_double_hyphen_tail _ _ Hn).
    + intros _ Hd. destruct s as [|d s]; [discriminate|].
      injection Hd as ->. simpl in Hn. discriminate.
  - f_equal. apply IH; [|discriminate].
    exact (no_double_hyphen_tail _ _ Hn).
Qed.

Lemma Forall_infix {A} (P : A -> Prop) (a s b : list A) :
  Forall P (a ++ s ++ b) -> Forall P s.
Proof.
  intros Hs. apply Forall_app in Hs as [_ Hs].
  now apply Forall_app in Hs as [Hs _].
Qed.

Lemma filter_kept (s : str) :
  Forall (fun c => kept c = true) (List.filter (fun c => kept c) s).
Proof.
  induction s as [|c s IH]; simpl; [constructor|].
  destruct (kept c) eqn:E; [constructor|]; trivial.
Qed.

Lemma filter_id (g : N -> bool) (s : str) :
  Forall (fun c => g c = true) s -> List.filter g s = s.
Proof.
  induction 1 as [|c s Hc Hs IH]; simpl; [reflexivity|].
  rewrite Hc. now f_equal.
Qed.

Lemma sanitize_chars (x : str) : Forall name_char (sanitize x).
Proof.
  unfold sanitize.
  set (w := sub_runs false _).
  destruct (strip_infix hyphen_or_underscore w) as (a & b & Hw).
  apply (Forall_infix _ a _ b). rewrite <- Hw.
  apply sub_runs_chars, filter_kept.
Qed.

Lemma sanitize_no_double (x : str) : no_double_hyphen (sanitize x) = true.
Proof.
  unfold sanitize.
  set (w := sub_runs false _).
  destruct (strip_infix hyphen_or_underscore w) as (a & b & Hw).
  apply (no_double_hyphen_infix a _ b). rewrite <- Hw.
  apply sub_runs_no_double.
Qed.

(** The three steps after the normalization leave a file name as it
    is. *)
Lemma sanitize_fixed (x : str) :
  strip hyphen_or_underscore
    (sub_runs false (List.filter (fun c => kept c) (sanitize x)))
  = sanitize x.
Proof.
  rewrite filter_id.
  2:{ eapply Forall_impl; [apply sanitize_chars|]. apply name_char_kept. }
  rewrite sub_runs_id.
  - unfold sanitize. apply strip_idempotent.
  - apply sanitize_chars.
  - apply sanitize_no_double.
  - discriminate.
Qed.
End SanitizeFacts.

Lemma begins_with_strip (f : N -> bool) (s : str) :
  begins_with f (strip f s) = false.
Proof.
  unfold begins_with. destruct (head (strip f s)) as [c|] eqn:E; [|reflexivity].
  exact (strip_head f s c E).
Qed.

Lemma ends_with_strip (f : N -> bool) (s : str) :
  ends_with f (strip f s) = false.
Proof.
  unfold ends_with. destruct (last (strip f s)) as [c|] eqn:E; [|reflexivity].
  exact (strip_last f s c E).
Qed.

(** C4, as the code has it: for every title [x], [sanitize x] is made of
    hyphens and of word characters in the sense of [\w] (the alphanumeric
    characters of any script and the underscore) that are no white space;
    it has no two hyphens in a row, and it neither begins nor ends with a
    hyphen or an underscore. *)
Theorem sanitize_shape `{PyRuntime} (x : str) :
  Forall name_char (sanitize x)
  /\ no_double_hyphen (sanitize x) = true
  /\ begins_with hyphen_or_underscore (sanitize x) = false
  /\ ends_with hyphen_or_underscore (sanitize x) = false.
Proof.
  split; [apply sanitize_chars|].
  split; [apply sanitize_no_double|].
  split; [apply begins_with_strip | apply ends_with_strip].
Qed.

(** C4 as stated fails: the Cyrillic letter U+0416 is a word character, so
    the file name of the title made of it is that letter, which is not in
    the class [[A-Za-z0-9_\- ]]. *)
Lemma sanitize_ascii_class_counterexample :
  ~ (Forall (fun c => in_ascii_class c = true)
       (@sanitize Excerpt.runtime [0x416])
     /\ no_double_hyphen (@sanitize Excerpt.runtime [0x416]) = true
     /\ begins_with hyphen_or_underscore (@sanitize Excerpt.runtime [0x416])
        = false
     /\ ends_with hyphen_or_underscore (@sanitize Excerpt.runtime [0x416])
        = false).
Proof.
  intros [Hc _]. change (@sanitize Excerpt.runtime [0x416]) with [0x416] in Hc.
  apply Forall_cons in Hc as [Hc _]. discriminate Hc.
Qed.

(** C6, as the code has it: a second pass changes nothing whenever the
    normalization leaves the file name of the first pass as it is. *)
Theorem sanitize_idempotent_normalized `{PyRuntime} (x : str) :
  normalize_NFKC (sanitize x) = sanitize x ->
  sanitize (sanitize x) = sanitize x.
Proof.
  intros Hn. unfold sanitize at 1. cbv zeta. rewrite Hn.
  apply sanitize_fixed.
Qed.

Lemma sanitize_idempotent_normalized_witness :
  @normalize_NFKC Excerpt.runtime (@sanitize Excerpt.runtime (u "My Clip!"))
  = @sanitize Excerpt.runtime (u "My Clip!")
  /\ @sanitize Excerpt.runtime (@sanitize Excerpt.runtime (u "My Clip!"))
     = @sanitize Excerpt.runtime (u "My Clip!").
Proof.
  split; [reflexivity|].
  apply (@sanitize_idempotent_normalized Excerpt.runtime (u "My Clip!")).
  reflexivity.
Defined.

(** C6 as stated fails: deleting the exclamation mark between the Hangul
    jamo U+1100 and U+1161 leaves them side by side, and the normalization
    of the second pass composes them into the syllable U+AC00. *)
Lemma sanitize_idempotent_counterexample :
  @sanitize Excerpt.runtime [0x1100; 33; 0x1161] = [0x1100; 0x1161]
  /\ @sanitize Excerpt.runtime
       (@sanitize Excerpt.runtime [0x1100; 33; 0x1161]) = [0xAC00]
  /\ @sanitize Excerpt.runtime
       (@sanitize Excerpt.runtime [0x1100; 33; 0x1161])
     <> @sanitize Excerpt.runtime [0x1100; 33; 0x1161].
Proof. repeat split. discriminate. Qed.

(** ** Extraction *)

(** C5: when the number of module scripts that hold the marker is not one,
    [get_videos] returns the empty dictionary and [None], without raising;
    it has printed its one line. *)
Theorem get_videos_not_one `{PyRuntime} (session : Session) (path : str)
    (c : console) (r : response) :
  session path = Ok r ->
  length (elements_of (soup r)) <> 1%nat ->
  get_videos session path c = (Ok (∅, None), print (GettingVideos path) c).
Proof.
  intros Hr Hn. unfold get_videos. rewrite Hr.
  destruct (Nat.eqb_spec (length (elements_of (soup r))) 1); [contradiction|].
  reflexivity.
Qed.

Lemma get_videos_not_one_witness :
  Examples.serve Examples.twice (u "p") = Ok (Examples.page Examples.twice)
  /\ length (elements_of (soup (Examples.page Examples.twice))) <> 1%nat
  /\ @get_videos Excerpt.runtime (Examples.serve Examples.twice) (u "p")
       Examples.quiet
     = (Ok (∅, None), print (GettingVideos (u "p")) Examples.quiet).
Proof.
  split; [reflexivity|]. split; [vm_compute; lia|].
  apply (@get_videos_not_one Excerpt.runtime (Examples.serve Examples.twice)
           (u "p") Examples.quiet (Examples.page Examples.twice)).
  - reflexivity.
  - vm_compute. lia.
Defined.

(** Without a title in the one metadata block, line 56 raises. *)
Lemma get_videos_no_title `{PyRuntime} (session : Session) (path : str)
    (c : console) (r : response) (e : element) (videos : gmap Z str) :
  session path = Ok r ->
  elements_of (soup r) = [e] ->
  dict_of (findall pattern_url (text e)) ∅ = Ok videos ->
  findall pattern_name (text e) = [] ->
  get_videos session path c
  = (Raise IndexError, print (GettingVideos path) c).
Proof.
  intros Hr He Hv Hn. unfold get_videos. rewrite Hr, He. simpl.
  now rewrite Hv, Hn.
Qed.

(** C2 fails on the code: on a page whose one metadata block has a URL and
    no title, and on one that has neither, [get_videos] raises
    [IndexError]; it does not return the empty dictionary and [None] that
    its docstring promises when no video is found. *)
Theorem get_videos_untitled_raises :
  @get_videos Excerpt.runtime (Examples.serve Examples.untitled) (u "p")
    Examples.quiet
  = (Raise IndexError, print (GettingVideos (u "p")) Examples.quiet)
  /\ @get_videos Excerpt.runtime (Examples.serve Examples.bare) (u "p")
       Examples.quiet
     = (Raise IndexError, print (GettingVideos (u "p")) Examples.quiet)
  /\ fst (@main_loop Excerpt.runtime (Examples.serve Examples.untitled)
            [u "p"] Examples.quiet [])
     = Raise IndexError.
Proof. repeat split; vm_compute; reflexivity. Qed.

(** C3, as the code has it: on the page of the scenario [get_videos]
    returns the two URLs as the page writes them, escaped, and the file
    name [My-Clip.mp4]; the loop of [main] unescapes the URL of the
    resolution that is chosen when it builds the download. *)
Theorem get_videos_scenario :
  @get_videos Excerpt.runtime (Examples.serve Examples.clip) (u "p")
    Examples.quiet
  = (Ok ({[ 720%Z := u "http:\/\/x\/a.mp4"; 1080%Z := u "http:\/\/x\/b.mp4" ]},
         Some (u "My-Clip.mp4")),
     print (GettingVideos (u "p")) Examples.quiet)
  /\ fst (@main_loop Excerpt.runtime (Examples.serve Examples.clip) [u "p"]
            {| stdin := [u "720"]; stdout := [] |} [])
     = Ok [(Some (u "My-Clip.mp4"), u "http://x/a.mp4")]
  /\ fst (@main_loop Excerpt.runtime (Examples.serve Examples.clip) [u "p"]
            {| stdin := [u "1080"]; stdout := [] |} [])
     = Ok [(Some (u "My-Clip.mp4"), u "http://x/b.mp4")].
Proof. repeat split; vm_compute; reflexivity. Qed.

(** C3 as stated fails: the dictionary that [get_videos] returns does not
    hold the unescaped URLs. *)
Lemma get_videos_scenario_counterexample :
  fst (@get_videos Excerpt.runtime (Examples.serve Examples.clip) (u "p")
         Examples.quiet)
  <> Ok ({[ 720%Z := u "http://x/a.mp4"; 1080%Z := u "http://x/b.mp4" ]},
         Some (u "My-Clip.mp4")).
Proof.
  intros E.
  assert (match fst (@get_videos Excerpt.runtime (Examples.serve Examples.clip)
                       (u "p") Examples.quiet) with
          | Ok (videos, _) => videos !! 720%Z
          | Raise _ => None
          end = Some (u "http://x/a.mp4")) as E'.
  { rewrite E. reflexivity. }
  vm_compute in E'. discriminate E'.
Qed.

(** ** Choosing a resolution *)

Section SelectionFacts.
Context `{PyRuntime}.

Lemma get_resolution_loop_spec (options : list Z) (lines : list str)
    (out : list message) :
  (exists before line rest r,
      lines = before ++ line :: rest
      /\ Forall (rejected options) before
      /\ py_int (strip isspace line) = Some r
      /\ r ∈ options
      /\ get_resolution_loop options lines out
         = (Ok r, {| stdin := rest;
                     stdout := out ++ rounds options before
                                   ++ [SelectResolution options] |}))
  \/ (Forall (rejected options) lines
      /\ get_resolution_loop options lines out
         = (Raise EOFError,
            {| stdin := [];
               stdout := out ++ rounds options lines
                             ++ [SelectResolution options] |})).
Proof.
  revert out. induction lines as [|line lines IH]; intros out.
  - right. split; [constructor|]. reflexivity.
  - simpl.
    assert (forall m,
      rejected options line -> rejection line = m ->
      (exists before line0 rest r,
          line :: lines = before ++ line0 :: rest
          /\ Forall (rejected options) before
          /\ py_int (strip isspace line0) = Some r
          /\ r ∈ options
          /\ get_resolution_loop options lines
               ((out ++ [SelectResolution options]) ++ [m])
             = (Ok r, {| stdin := rest;
                         stdout := out ++ rounds options before
                                       ++ [SelectResolution options] |}))
      \/ (Forall (rejected options) (line :: lines)
          /\ get_resolution_loop options lines
               ((out ++ [SelectResolution options]) ++ [m])
             = (Raise EOFError,
                {| stdin := [];
                   stdout := out ++ rounds options (line :: lines)
                                 ++ [SelectResolution options] |}))) as Hrej.
    { intros m Hline Hm.
      destruct (IH ((out ++ [SelectResolution options]) ++ [m]))
        as [(before & line0 & rest & r & -> & Hb & Hr & Hin & E)|[Hall E]].
      - left. exists (line :: before), line0, rest, r.
        repeat split; trivial; [now constructor|].
        rewrite E. simpl. rewrite Hm, <- !app_assoc. reflexivity.
      - right. split; [now constructor|].
        rewrite E. simpl. rewrite Hm, <- !app_assoc. reflexivity. }
    destruct (py_int (strip isspace line)) as [resol|] eqn:Hint.
    + case_bool_decide as Hmem.
      * left. exists [], line, lines, resol.
        repeat split; trivial; constructor.
      * apply Hrej.
        -- intros n Hn. unfold rejected in *. congruence.
        -- unfold rejection. now rewrite Hint.
    + apply Hrej.
      * intros n Hn. congruence.
      * unfold rejection. now rewrite Hint.
Qed.

Lemma get_resolution_member (options : list Z) (c c' : console) (r : Z) :
  get_resolution options c = (Ok r, c') -> r ∈ options.
Proof.
  unfold get_resolution.
  destruct (get_resolution_loop_spec options (stdin c) (stdout c))
    as [(before & line & rest & r' & _ & _ & _ & Hin & E)|[_ E]];
    rewrite E; intros [= <- _]; exact Hin.
Qed.

Lemma get_resolution_raises (options : list Z) (c c' : console) (e : exn) :
  get_resolution options c = (Raise e, c') -> e = EOFError.
Proof.
  unfold get_resolution.
  destruct (get_resolution_loop_spec options (stdin c) (stdout c))
    as [(before & line & rest & r' & _ & _ & _ & Hin & E)|[_ E]];
    rewrite E; now intros [= <- _].
Qed.

Lemma sorted_keys_lookup (videos : gmap Z str) (r : Z) :
  r ∈ sorted_keys videos -> exists url, videos !! r = Some url.
Proof.
  unfold sorted_keys. rewrite merge_sort_Permutation.
  intros ([r' url] & -> & Hin)%list_elem_of_fmap.
  exists url. now apply elem_of_map_to_list.
Qed.
End SelectionFacts.

(** C8: whatever the options and the lines on standard input, either
    [get_resolution] returns an integer [r] of the options, read from the
    first line that parses as such a member, every line before it having
    been turned down with a message and followed by a new prompt; or no
    line is acceptable and the end of the input raises [EOFError]. No
    other exception is raised, and no line that is turned down ends the
    loop. *)
Theorem get_resolution_spec `{PyRuntime} (options : list Z) (c : console) :
  (exists before line rest r,
      stdin c = before ++ line :: rest
      /\ Forall (rejected options) before
      /\ py_int (strip isspace line) = Some r
      /\ r ∈ options
      /\ get_resolution options c
         = (Ok r, {| stdin := rest;
                     stdout := stdout c ++ rounds options before
                                        ++ [SelectResolution options] |}))
  \/ (Forall (rejected options) (stdin c)
      /\ get_resolution options c
         = (Raise EOFError,
            {| stdin := [];
               stdout := stdout c ++ rounds options (stdin c)
                                  ++ [SelectResolution options] |})).
Proof. apply get_resolution_loop_spec. Qed.

(** ** The loop of [main] over the pages *)

(** C7: when the page offers a single resolution [r], the loop of [main]
    takes its URL at once: [get_resolution] is not called, nothing is
    printed and no line is read. *)
Theorem main_body_single `{PyRuntime} (r : Z) (url : str)
    (filename : option str) (c : console) :
  main_body {[ r := url ]} filename c
  = (Ok (Some (filename, unescape url)), c).
Proof.
  unfold main_body. rewrite map_size_singleton, map_to_list_singleton.
  reflexivity.
Qed.

(** Called on its own, [get_resolution] prompts at least once, whatever
    the options: the shortcut for a single resolution is in [main]. *)
Lemma get_resolution_prompts `{PyRuntime} (options : list Z) (c : console) :
  exists printed,
    stdout (get_resolution options c).2
    = stdout c ++ printed ++ [SelectResolution options].
Proof.
  unfold get_resolution.
  destruct (get_resolution_loop_spec options (stdin c) (stdout c))
    as [(before & line & rest & r & _ & _ & _ & _ & E)|[_ E]];
    rewrite E; simpl; eauto.
Qed.

(** C9, as the code has it: [main] skips a page exactly when its
    dictionary is empty. A page with a URL whose title sanitizes to the
    empty string is not skipped: its download goes to the file [.mp4], or
    the input ends while the resolution is asked for, and [EOFError] ends
    the run. *)
Theorem main_body_empty_name `{PyRuntime} (videos : gmap Z str) (name : str)
    (c : console) :
  videos <> ∅ ->
  sanitize name = [] ->
  match main_body videos (Some (sanitize name ++ u ".mp4")) c with
  | (Ok (Some (filename, url)), _) =>
      filename = Some (u ".mp4")
      /\ exists r raw, videos !! r = Some raw /\ url = unescape raw
  | (Ok None, _) => False
  | (Raise e, _) => e = EOFError /\ (1 < size videos)%nat
  end.
Proof.
  intros Hv ->. unfold main_body.
  assert (size videos <> 0%nat) as Hs by now apply map_size_non_empty_iff.
  rewrite bool_decide_eq_false_2 by exact Hs.
  case_bool_decide as Hm.
  - destruct (get_resolution (sorted_keys videos) c) as [[r|e] c'] eqn:E.
    + apply get_resolution_member, sorted_keys_lookup in E as [raw Hr].
      rewrite Hr. split; [reflexivity|]. now exists r, raw.
    + split; [|exact Hm]. exact (get_resolution_raises _ _ _ _ E).
  - destruct (map_to_list videos) as [|[r raw] l] eqn:El.
    + now apply map_to_list_empty_iff in El.
    + simpl. split; [reflexivity|]. exists r, raw. split; [|reflexivity].
      apply elem_of_map_to_list. rewrite El. left.
Qed.

Lemma main_body_empty_name_witness :
  ({[ 720%Z := u "http:\/\/x\/a.mp4" ]} : gmap Z str) <> ∅
  /\ @sanitize Excerpt.runtime (u "!!!") = []
  /\ match @main_body Excerpt.runtime {[ 720%Z := u "http:\/\/x\/a.mp4" ]}
             (Some (@sanitize Excerpt.runtime (u "!!!") ++ u ".mp4"))
             Examples.quiet with
     | (Ok (Some (filename, url)), _) =>
         filename = Some (u ".mp4")
         /\ exists r raw,
              ({[ 720%Z := u "http:\/\/x\/a.mp4" ]} : gmap Z str) !! r
              = Some raw
              /\ url = unescape raw
     | (Ok None, _) => False
     | (Raise e, _) =>
         e = EOFError
         /\ (1 < size ({[ 720%Z := u "http:\/\/x\/a.mp4" ]} : gmap Z str))%nat
     end.
Proof.
  split; [apply map_non_empty_singleton|]. split; [reflexivity|].
  apply (@main_body_empty_name Excerpt.runtime
           {[ 720%Z := u "http:\/\/x\/a.mp4" ]} (u "!!!") Examples.quiet).
  - apply map_non_empty_singleton.
  - reflexivity.
Defined.

(** C9 as stated fails: the title [!!!] sanitizes to the empty string, and
    the page is not skipped; its download to the file [.mp4] is in the
    list that the loop hands to the pool. *)
Lemma main_loop_empty_name_counterexample :
  @sanitize Excerpt.runtime (u "!!!") = []
  /\ fst (@main_loop Excerpt.runtime (Examples.serve Examples.bang) [u "p"]
            Examples.quiet [])
     = Ok [(Some (u ".mp4"), u "http://x/a.mp4")].
Proof. split; vm_compute; reflexivity. Qed.

(** ** Downloading one file *)

(** C10: when the server answers the streamed GET with a status from 400
    to 599, [download_file] raises before it opens the file: the file
    system is as it was, the file [filename] neither created nor
    emptied. *)
Theorem download_file_http_error `{PyRuntime} (session : Session)
    (filename : option str) (url : str) (fs : gmap str bytes) (r : response) :
  session url = Ok r ->
  (400 <= status_code r < 600)%Z ->
  download_file session filename url fs
  = (Raise (HTTPError (status_code r)), fs).
Proof.
  intros Hr [Hlo Hhi]. unfold download_file, raise_for_status. rewrite Hr.
  apply Z.leb_le in Hlo. apply Z.ltb_lt in Hhi. now rewrite Hlo, Hhi.
Qed.

Lemma download_file_http_error_witness :
  Examples.lacks_a (u "http://x/a.mp4") = Ok (Examples.answer 404 [])
  /\ (400 <= status_code (Examples.answer 404 []) < 600)%Z
  /\ @download_file Excerpt.runtime Examples.lacks_a (Some (u "a.mp4"))
       (u "http://x/a.mp4") Examples.disk
     = (Raise (HTTPError (status_code (Examples.answer 404 []))),
        Examples.disk).
Proof.
  split; [reflexivity|]. split; [simpl; lia|].
  apply (@download_file_http_error Excerpt.runtime Examples.lacks_a
           (Some (u "a.mp4")) (u "http://x/a.mp4") Examples.disk
           (Examples.answer 404 [])).
  - reflexivity.
  - simpl. lia.
Defined.

(** ** The pool *)

Section PoolFacts.
Context {A B S : Type}.
Variable func : A -> S -> result B * S.

Lemma mapstar_ok (chunk : list A) (st st' : S) (bs : list B) :
  mapstar func chunk st = (Ok bs, st') ->
  length bs = length chunk /\ Forall (succeeds func) chunk.
Proof.
  revert st st' bs. induction chunk as [|x chunk IH]; intros st st' bs; simpl.
  - intros [= <- _]. split; [reflexivity | constructor].
  - destruct (func x st) as [[b|e] st1] eqn:Ex; [|discriminate].
    destruct (mapstar func chunk st1) as [[bs'|e] st2] eqn:Ec; [|discriminate].
    intros [= <- _]. destruct (IH st1 st2 bs' Ec) as [Hl Hs].
    split; [simpl; now f_equal|].
    constructor; [|exact Hs]. now exists st, b, st1.
Qed.

Lemma mapstar_raise (chunk : list A) (st st' : S) (e : exn) :
  mapstar func chunk st = (Raise e, st') ->
  exists x, x ∈ chunk /\ fails_with func x e.
Proof.
  revert st st'. induction chunk as [|x chunk IH]; intros st st'; simpl.
  - discriminate.
  - destruct (func x st) as [[b|e'] st1] eqn:Ex.
    + destruct (mapstar func chunk st1) as [[bs'|e'] st2] eqn:Ec;
        [discriminate|].
      intros [= <- _]. destruct (IH st1 st2 Ec) as (y & Hy & Hf).
      exists y. split; [now right | exact Hf].
    + intros [= <- _]. exists x. split; [left|]. now exists st, st1.
Qed.

(** Every answer is the answer of its chunk, and every chunk of [order]
    is answered. *)
Lemma run_tasks_answers (order : list nat) (tasks : list (list A)) (st : S) :
  Forall (fun a => exists chunk st1 st2,
            tasks !! a.1 = Some chunk /\ mapstar func chunk st1 = (a.2, st2))
         (run_tasks func order tasks st).1.
Proof.
  revert st. induction order as [|i order IH]; intros st; simpl.
  - constructor.
  - destruct (tasks !! i) as [chunk|] eqn:Ei; [|apply IH].
    destruct (mapstar func chunk st) as [r st1] eqn:Em.
    specialize (IH st1).
    destruct (run_tasks func order tasks st1) as [rs st2]. simpl in *.
    constructor; [|exact IH]. now exists chunk, st, st1.
Qed.

Lemma run_tasks_indices (order : list nat) (tasks : list (list A)) (st : S) :
  Forall (fun i => (i < length tasks)%nat) order ->
  (run_tasks func order tasks st).1.*1 = order.
Proof.
  intros Ho. revert st. induction Ho as [|i order Hi Ho IH]; intros st; simpl.
  - reflexivity.
  - destruct (lookup_lt_is_Some_2 tasks i Hi) as [chunk Ei]. rewrite Ei.
    destruct (mapstar func chunk st) as [r st1].
    specialize (IH st1).
    destruct (run_tasks func order tasks st1) as [rs st2]. simpl in *.
    now f_equal.
Qed.

Lemma first_exception_Some (answers : list (nat * result (list B)))
    (e : exn) :
  first_exception answers = Some e -> exists i, (i, Raise e) ∈ answers.
Proof.
  induction answers as [|[i [bs|e']] answers IH]; simpl.
  - discriminate.
  - intros [j Hj]%IH. exists j. now right.
  - intros [= <-]. exists i. left.
Qed.

Lemma first_exception_None (answers : list (nat * result (list B))) :
  first_exception answers = None ->
  Forall (fun a => exists bs, a.2 = Ok bs) answers.
Proof.
  induction answers as [|[i [bs|e']] answers IH]; simpl.
  - constructor.
  - intros Hn. constructor; [now exists bs | now apply IH].
  - discriminate.
Qed.

Lemma answer_of_elem (i : nat) (answers : list (nat * result (list B))) :
  i ∈ answers.*1 ->
  exists r, (i, r) ∈ answers
            /\ answer_of i answers
               = match r with Ok bs => bs | Raise _ => [] end.
Proof.
  induction answers as [|[j r] answers IH]; simpl.
  - intros Hi. inversion Hi.
  - intros Hi. destruct (Nat.eqb_spec i j) as [->|Hne].
    + exists r. split; [left | reflexivity].
    + apply elem_of_cons in Hi as [Hi|Hi]; [contradiction|].
      destruct (IH Hi) as (r' & Hr & E). exists r'. split; [now right|exact E].
Qed.

Lemma length_concat_indexed (g : nat -> list B) (tasks : list (list A)) :
  (forall i chunk, tasks !! i = Some chunk -> length (g i) = length chunk) ->
  length (concat (List.map g (seq 0 (length tasks))))
  = length (concat tasks).
Proof.
  induction tasks as [|chunk tasks IH] using rev_ind; intros Hg.
  - reflexivity.
  - rewrite length_app. simpl. rewrite seq_app, List.map_app, !concat_app.
    rewrite !length_app. simpl. rewrite !app_nil_r.
    rewrite IH.
    + f_equal. apply Hg. rewrite lookup_app_r by lia.
      now rewrite Nat.sub_diag.
    + intros i c Hi. apply Hg. rewrite lookup_app_l; [exact Hi|].
      now apply lookup_lt_Some in Hi.
Qed.
End PoolFacts.

Section PoolMap.
Context {A B S : Type}.
Variable func : A -> S -> result B * S.

Lemma concat_get_tasks (fuel size : nat) (it : list A) :
  (0 < size)%nat -> (length it <= fuel)%nat ->
  concat (get_tasks fuel size it) = it.
Proof.
  intros Hs. revert it. induction fuel as [|fuel IH]; intros it Hl.
  - destruct it; [reflexivity | simpl in Hl; lia].
  - simpl. destruct (take size it) as [|x xs] eqn:Et.
    + destruct it as [|y it]; [reflexivity|].
      destruct size; [lia | discriminate Et].
    + change ((x :: xs) ++ concat (get_tasks fuel size (drop size it)) = it).
      rewrite <- Et, IH.
      * apply take_drop.
      * rewrite length_drop. lia.
Qed.

Lemma chunksize_of_pos (len processes : nat) :
  (0 < len)%nat -> (0 < chunksize_of len processes)%nat.
Proof.
  intros Hl. unfold chunksize_of.
  destruct (Nat.eqb_spec (len mod (processes * 4)) 0) as [E|_]; [|lia].
  pose proof (Nat.div_mod_eq len (processes * 4)) as Hd. rewrite E in Hd.
  destruct (len / (processes * 4))%nat; [|lia].
  rewrite Nat.mul_0_r in Hd. lia.
Qed.

Lemma concat_chunks_of (processes : nat) (iterable : list A) :
  concat (chunks_of processes iterable) = iterable.
Proof.
  unfold chunks_of. destruct iterable as [|x l]; [reflexivity|].
  apply concat_get_tasks; [|lia].
  change (length (x :: l) =? 0)%nat with false. cbv iota.
  apply chunksize_of_pos. simpl. lia.
Qed.

(** What the pool answers when no chunk raised: every chunk ran to its
    end, and its results are in the value. *)
Lemma answers_without_exception (order : list nat) (tasks : list (list A))
    (st : S) (i : nat) (chunk : list A) :
  order ≡ₚ seq 0 (length tasks) ->
  first_exception (run_tasks func order tasks st).1 = None ->
  tasks !! i = Some chunk ->
  exists bs st1 st2,
    mapstar func chunk st1 = (Ok bs, st2)
    /\ answer_of i (run_tasks func order tasks st).1 = bs.
Proof.
  intros Hp Hn Hi.
  assert (Forall (fun i => (i < length tasks)%nat) order) as Hr.
  { rewrite Hp. apply Forall_forall. intros j Hj%elem_of_seq. lia. }
  pose proof (run_tasks_indices func order tasks st Hr) as Hx.
  pose proof (run_tasks_answers func order tasks st) as Ha.
  apply first_exception_None in Hn.
  destruct (answer_of_elem i (run_tasks func order tasks st).1)
    as (r & Hin & E).
  { rewrite Hx, Hp. apply elem_of_seq. apply lookup_lt_Some in Hi. lia. }
  rewrite Forall_forall in Ha, Hn.
  destruct (Ha _ Hin) as (chunk' & st1 & st2 & Hc & Hm).
  destruct (Hn _ Hin) as [bs Hb]. simpl in *. subst r.
  rewrite Hi in Hc. injection Hc as <-.
  now exists bs, st1, st2.
Qed.

Lemma pool_map_outcome (processes : nat) (order : list nat)
    (iterable : list A) (st : S) :
  order ≡ₚ seq 0 (length (chunks_of processes iterable)) ->
  match pool_map func processes order iterable st with
  | (Ok bs, _) =>
      length bs = length iterable /\ Forall (succeeds func) iterable
  | (Raise e, _) => exists x, x ∈ iterable /\ fails_with func x e
  end.
Proof.
  intros Hp. unfold pool_map.
  pose proof (concat_chunks_of processes iterable) as Hc.
  set (tasks := chunks_of processes iterable) in *.
  pose proof (run_tasks_answers func order tasks st) as Ha.
  pose proof (answers_without_exception order tasks st) as Hw.
  destruct (run_tasks func order tasks st) as [answers st1]. simpl in *.
  destruct (first_exception answers) as [e|] eqn:Ee.
  - apply first_exception_Some in Ee as [i Hi].
    rewrite Forall_forall in Ha.
    destruct (Ha _ Hi) as (chunk & st2 & st3 & Ht & Hm). simpl in *.
    apply mapstar_raise in Hm as (x & Hx & Hf).
    exists x. split; [|exact Hf].
    rewrite <- Hc. apply list_elem_of_In, in_concat.
    exists chunk. split; apply list_elem_of_In; [|exact Hx].
    apply list_elem_of_lookup. now exists i.
  - split.
    + rewrite <- Hc. apply length_concat_indexed.
      intros i chunk Hi.
      destruct (Hw i chunk Hp eq_refl Hi) as (bs & st2 & st3 & Hm & ->).
      now apply mapstar_ok in Hm.
    + apply Forall_forall. intros x Hx. rewrite <- Hc in Hx.
      apply list_elem_of_In, in_concat in Hx as (chunk & Hck & Hx).
      apply list_elem_of_In, list_elem_of_lookup in Hck as [i Hi].
      destruct (Hw i chunk Hp eq_refl Hi) as (bs & st2 & st3 & Hm & _).
      apply mapstar_ok in Hm as [_ Hs].
      rewrite Forall_forall in Hs. apply Hs. now apply list_elem_of_In.
Qed.
End PoolMap.

Section PoolRun.
Context {A B S : Type}.
Variable func : A -> S -> result B * S.

(** The state after the calls of [func] on a list, one after another. *)
Lemma mapstar_state (chunk : list A) (st st' : S) (bs : list B) :
  mapstar func chunk st = (Ok bs, st') ->
  st' = foldl (fun st x => (func x st).2) st chunk.
Proof.
  revert st st' bs. induction chunk as [|x chunk IH]; intros st st' bs; simpl.
  - now intros [= _ <-].
  - destruct (func x st) as [[b|e] st1] eqn:Ex; [|discriminate].
    destruct (mapstar func chunk st1) as [[bs'|e] st2] eqn:Ec; [|discriminate].
    intros [= _ <-]. simpl. exact (IH _ _ _ Ec).
Qed.

Lemma run_tasks_state (order : list nat) (tasks : list (list A)) (st : S) :
  first_exception (run_tasks func order tasks st).1 = None ->
  (run_tasks func order tasks st).2
  = foldl (fun st x => (func x st).2) st
      (concat (omap (fun i => tasks !! i) order)).
Proof.
  revert st. induction order as [|i order IH]; intros st; simpl.
  - reflexivity.
  - destruct (tasks !! i) as [chunk|] eqn:Ei; [|apply IH].
    destruct (mapstar func chunk st) as [r st1] eqn:Em.
    specialize (IH st1).
    destruct (run_tasks func order tasks st1) as [rs st2]. simpl in *.
    destruct r as [bs|e]; [|discriminate].
    intros Hn. rewrite foldl_app, <- (mapstar_state _ _ _ _ Em).
    now apply IH.
Qed.

Lemma omap_lookup_seq_from (pre tasks : list (list A)) :
  omap (fun i => (pre ++ tasks) !! i) (seq (length pre) (length tasks))
  = tasks.
Proof.
  revert pre. induction tasks as [|chunk tasks IH]; intros pre; [reflexivity|].
  simpl. rewrite list_lookup_middle by reflexivity. f_equal.
  rewrite (cons_middle chunk pre tasks), app_assoc.
  replace (Datatypes.S (length pre)) with (length (pre ++ [chunk])).
  - apply IH.
  - rewrite length_app. simpl. lia.
Qed.

Lemma omap_lookup_seq (tasks : list (list A)) :
  omap (fun i => tasks !! i) (seq 0 (length tasks)) = tasks.
Proof. exact (omap_lookup_seq_from [] tasks). Qed.

Lemma Permutation_concat_lists (l l' : list (list A)) :
  l ≡ₚ l' -> concat l ≡ₚ concat l'.
Proof.
  induction 1 as [|x l l' _ IH|x y l|l l' l'' _ IH1 _ IH2]; simpl.
  - reflexivity.
  - now apply Permutation_app_head.
  - rewrite !app_assoc. apply Permutation_app_tail, Permutation_app_comm.
  - now transitivity (concat l').
Qed.

(** When no chunk raised, the state is the one that the calls of [func]
    leave when they are made one after another, on the elements of the
    iterable in some order. *)
Lemma pool_map_state (processes : nat) (order : list nat)
    (iterable : list A) (st : S) (bs : list B) :
  order ≡ₚ seq 0 (length (chunks_of processes iterable)) ->
  (pool_map func processes order iterable st).1 = Ok bs ->
  exists run,
    run ≡ₚ iterable
    /\ (pool_map func processes order iterable st).2
       = foldl (fun st x => (func x st).2) st run.
Proof.
  intros Hp. unfold pool_map.
  pose proof (run_tasks_state order (chunks_of processes iterable) st) as Hs.
  destruct (run_tasks func order (chunks_of processes iterable) st)
    as [answers st1]. simpl in Hs.
  destruct (first_exception answers) as [e|]; [discriminate|].
  intros _. simpl.
  exists (concat (omap (fun i => chunks_of processes iterable !! i) order)).
  split; [|now apply Hs].
  transitivity (concat (chunks_of processes iterable));
    [|now rewrite concat_chunks_of].
  apply Permutation_concat_lists.
  transitivity (omap (fun i => chunks_of processes iterable !! i)
                  (seq 0 (length (chunks_of processes iterable))));
    [|now rewrite omap_lookup_seq].
  now apply omap_Permutation.
Qed.
End PoolRun.

(** Whether a download fails, and how, does not depend on the files. *)
Lemma worker_outcome `{PyRuntime} (session : Session) (j : job)
    (fs fs0 : gmap str bytes) :
  (worker session j fs).1 = (worker session j fs0).1.
Proof.
  unfold worker, download_file.
  destruct (session j.2) as [r|e]; [|reflexivity].
  destruct (raise_for_status r); [|reflexivity].
  destruct (total_size r); [|reflexivity].
  destruct j.1 as [name|]; [|reflexivity].
  destruct (open_error name); [reflexivity|].
  now destruct (stream_error r).
Qed.

Section PoolAttempts.
Context {A B S : Type}.
Variable func : A -> S -> result B * S.
Variable ok : A -> bool.
Hypothesis func_ok : forall x st, is_ok (func x st).1 = ok x.

(** Whatever the outcome, the state after a chunk is that after the calls
    on its elements up to the first that raises. *)
Lemma mapstar_attempted (chunk : list A) (st : S) :
  (mapstar func chunk st).2
  = foldl (fun st x => (func x st).2) st (attempted ok chunk).
Proof.
  revert st. induction chunk as [|x chunk IH]; intros st; simpl.
  - reflexivity.
  - rewrite <- (func_ok x st). specialize (IH (func x st).2).
    destruct (func x st) as [[b|e] st1] eqn:Ex; simpl in *.
    + rewrite Ex. simpl. rewrite <- IH.
      now destruct (mapstar func chunk st1) as [[bs|e] st2].
    + now rewrite Ex.
Qed.

Lemma run_tasks_attempted (order : list nat) (tasks : list (list A))
    (st : S) :
  (run_tasks func order tasks st).2
  = foldl (fun st x => (func x st).2) st
      (concat (List.map (attempted ok)
                 (omap (fun i => tasks !! i) order))).
Proof.
  revert st. induction order as [|i order IH]; intros st; simpl.
  - reflexivity.
  - destruct (tasks !! i) as [chunk|] eqn:Ei; [|apply IH].
    pose proof (mapstar_attempted chunk st) as Hm.
    destruct (mapstar func chunk st) as [r st1]. simpl in Hm.
    specialize (IH st1).
    destruct (run_tasks func order tasks st1) as [rs st2]. simpl in *.
    now rewrite foldl_app, <- Hm.
Qed.

(** Every chunk is run, in the order of the pool, whatever happens in the
    other chunks. *)
Lemma pool_map_attempted (processes : nat) (order : list nat)
    (iterable : list A) (st : S) :
  order ≡ₚ seq 0 (length (chunks_of processes iterable)) ->
  exists run,
    run ≡ₚ concat (List.map (attempted ok) (chunks_of processes iterable))
    /\ (pool_map func processes order iterable st).2
       = foldl (fun st x => (func x st).2) st run.
Proof.
  intros Hp.
  exists (concat (List.map (attempted ok)
                    (omap (fun i => chunks_of processes iterable !! i)
                       order))).
  split.
  - apply Permutation_concat_lists, Permutation_map.
    transitivity (omap (fun i => chunks_of processes iterable !! i)
                    (seq 0 (length (chunks_of processes iterable))));
      [|now rewrite omap_lookup_seq].
    now apply omap_Permutation.
  - unfold pool_map.
    pose proof (run_tasks_attempted order (chunks_of processes iterable) st)
      as Hs.
    destruct (run_tasks func order (chunks_of processes iterable) st)
      as [answers st1]. simpl in Hs.
    now destruct (first_exception answers).
Qed.

Lemma attempted_short (chunk : list A) :
  (length chunk <= 1)%nat -> attempted ok chunk = chunk.
Proof.
  destruct chunk as [|x [|y chunk]]; simpl; [reflexivity | | lia].
  now destruct (ok x).
Qed.

Lemma get_tasks_lengths (fuel size : nat) (it : list A) :
  Forall (fun chunk => (length chunk <= size)%nat) (get_tasks fuel size it).
Proof.
  revert it. induction fuel as [|fuel IH]; intros it; simpl; [constructor|].
  destruct (take size it) as [|x xs] eqn:Et; [constructor|].
  constructor; [|apply IH].
  rewrite <- Et, length_take. lia.
Qed.

Lemma chunksize_of_small (len : nat) :
  (0 < len <= 16)%nat -> chunksize_of len 4 = 1%nat.
Proof.
  intros Hl. unfold chunksize_of. change (4 * 4)%nat with 16%nat.
  destruct (Nat.eq_dec len 16%nat) as [->|Hne]; [reflexivity|].
  rewrite Nat.div_small, Nat.mod_small by lia.
  destruct (Nat.eqb_spec len 0); [lia | reflexivity].
Qed.

(** Up to sixteen elements every chunk holds one element, so that the
    function is called on every element. *)
Lemma attempted_chunks_small (iterable : list A) :
  (length iterable <= 16)%nat ->
  concat (List.map (attempted ok) (chunks_of 4 iterable)) = iterable.
Proof.
  intros Hl. rewrite <- (concat_chunks_of 4 iterable) at 2. f_equal.
  assert (Forall (fun chunk => (length chunk <= 1)%nat)
            (chunks_of 4 iterable)) as Hc.
  { unfold chunks_of. destruct iterable as [|x l]; [constructor|].
    change (length (x :: l) =? 0)%nat with false. cbv iota.
    rewrite chunksize_of_small by (simpl in *; lia).
    apply get_tasks_lengths. }
  induction Hc as [|chunk chunks Hch Hc IH]; simpl; [reflexivity|].
  now rewrite attempted_short, IH.
Qed.
End PoolAttempts.

Lemma made_run `{PyRuntime} (session : Session) (order : list nat)
    (download_files : list job) (fs : gmap str bytes) :
  order ≡ₚ seq 0 (length (chunks_of 4 download_files)) ->
  exists run,
    run ≡ₚ made session download_files
    /\ (download_all session order download_files fs).2
       = foldl (fun fs params => (worker session params fs).2) fs run.
Proof.
  apply (pool_map_attempted (worker session)).
  intros params st. now rewrite (worker_outcome session params st ∅).
Qed.

Lemma made_small `{PyRuntime} (session : Session)
    (download_files : list job) :
  (length download_files <= 16)%nat ->
  made session download_files = download_files.
Proof. apply attempted_chunks_small. Qed.

Lemma main_after_loop `{PyRuntime} (session : Session) (order : list nat)
    (paths : list str) (c c' : console) (download_files : list job)
    (fs : gmap str bytes) :
  main_loop session paths c [] = (Ok download_files, c') ->
  main session order paths c fs
  = (match (download_all session order download_files fs).1 with
     | Ok _ => Ok tt
     | Raise e => Raise e
     end,
     print Downloading c',
     (download_all session order download_files fs).2).
Proof.
  intros Hl. unfold main. rewrite Hl.
  now destruct (download_all session order download_files fs) as [[rs|e] fs'].
Qed.




(** From seventeen downloads on the chunks hold two of them, and a
    download that fails ends its chunk: the download that shares the chunk
    of the failed one is never made, the others are. *)
Lemma download_all_chunk_abandoned :
  chunksize_of 17 4 = 2%nat
  /\ (@download_all Excerpt.runtime Examples.lacks_a (seq 0 9)
        (Examples.job_a :: Examples.job_b :: replicate 15 Examples.job_c)
        ∅).2
     = {[ u "c.mp4" := [Byte.x01] ]}
  /\ fst (@download_all Excerpt.runtime Examples.lacks_a (seq 0 9)
            (Examples.job_a :: Examples.job_b :: replicate 15 Examples.job_c)
            ∅)
     = Raise (HTTPError 404).
Proof. repeat split; vm_compute; reflexivity. Qed.

(** [main] has no handler: what the pool raises ends the run. *)
Lemma main_download_failure `{PyRuntime} (session : Session)
    (order : list nat) (paths : list str) (c c' : console)
    (fs fs' : gmap str bytes) (download_files : list job) (e : exn) :
  main_loop session paths c [] = (Ok download_files, c') ->
  download_all session order download_files fs = (Raise e, fs') ->
  main session order paths c fs = (Raise e, print Downloading c', fs').
Proof. intros Hl Hd. unfold main. now rewrite Hl, Hd. Qed.

(** * Further properties of the code *)

(** ** More on file names *)

Section MoreStrip.
Variable f : N -> bool.

Lemma lstrip_dropped (s : str) :
  exists a, s = a ++ lstrip f s /\ Forall (fun c => f c = true) a.
Proof.
  induction s as [|c s (a & Ha & Hf)]; simpl.
  - exists []. split; [reflexivity | constructor].
  - destruct (f c) eqn:E.
    + exists (c :: a). split; [simpl; now f_equal | now constructor].
    + exists []. split; [reflexivity | constructor].
Qed.

Lemma strip_dropped (s : str) :
  exists a b, s = a ++ strip f s ++ b
              /\ Forall (fun c => f c = true) a
              /\ Forall (fun c => f c = true) b.
Proof.
  unfold strip, rstrip.
  destruct (lstrip_dropped s) as (a & Ha & Hfa).
  destruct (lstrip_dropped (rev (lstrip f s))) as (b & Hb & Hfb).
  exists a, (rev b). repeat split; trivial.
  - rewrite <- rev_app_distr, <- Hb, rev_involutive. exact Ha.
  - now apply Forall_rev.
Qed.

Lemma filter_none (p : N -> bool) (s : str) :
  Forall (fun c => p c = false) s -> List.filter p s = [].
Proof.
  induction 1 as [|c s Hc Hs IH]; simpl; [reflexivity|]. now rewrite Hc.
Qed.

Lemma filter_strip (p : N -> bool) (s : str) :
  (forall c, f c = true -> p c = false) ->
  List.filter p (strip f s) = List.filter p s.
Proof.
  intros Hp. destruct (strip_dropped s) as (a & b & Hs & Ha & Hb).
  rewrite Hs at 2. rewrite !List.filter_app.
  rewrite (filter_none p a), (filter_none p b).
  - now rewrite app_nil_r.
  - eapply Forall_impl; [exact Hb | exact Hp].
  - eapply Forall_impl; [exact Ha | exact Hp].
Qed.

Lemma strip_nil (s : str) :
  Forall (fun c => f c = true) (strip f s) -> strip f s = [].
Proof.
  intros Hs. pose proof (begins_with_strip f s) as Hb.
  unfold begins_with in Hb.
  destruct (strip f s) as [|c t]; [reflexivity|].
  apply Forall_cons in Hs as [Hc _]. simpl in Hb. congruence.
Qed.
End MoreStrip.

Section MoreSanitize.
Context `{PyRuntime}.

Lemma letter_kept (c : N) : letter c = true -> kept c = true.
Proof.
  unfold letter, kept, is_word.
  intros [[Ha _]%andb_true_iff _]%andb_true_iff. now rewrite Ha.
Qed.

Lemma letter_outside_runs (c : N) :
  hyphen_or_space c = true -> letter c = false.
Proof.
  unfold letter. intros ->. now rewrite andb_false_r.
Qed.

Lemma letter_not_stripped (c : N) :
  hyphen_or_underscore c = true -> letter c = false.
Proof.
  unfold hyphen_or_underscore, letter, hyphen_or_space.
  destruct (c =? hyphen), (c =? underscore), (isalnum c), (isspace c);
    simpl; congruence.
Qed.

Lemma filter_letter_kept (s : str) :
  List.filter letter (List.filter (fun c => kept c) s) = List.filter letter s.
Proof.
  induction s as [|c s IH]; simpl; [reflexivity|].
  destruct (kept c) eqn:Ek; simpl.
  - now rewrite IH.
  - destruct (letter c) eqn:El; [|exact IH].
    apply letter_kept in El. congruence.
Qed.

Lemma filter_letter_sub_runs (in_run : bool) (s : str) :
  List.filter letter (sub_runs in_run s) = List.filter letter s.
Proof.
  revert in_run. induction s as [|c s IH]; intros in_run; simpl;
    [reflexivity|].
  destruct (hyphen_or_space c) eqn:E.
  - rewrite (letter_outside_runs c E).
    destruct in_run; simpl; [apply IH|].
    rewrite (letter_outside_runs hyphen eq_refl). apply IH.
  - simpl. now rewrite IH.
Qed.

Lemma filter_letter_sanitize (x : str) :
  List.filter letter (sanitize x) = List.filter letter (normalize_NFKC x).
Proof.
  unfold sanitize.
  rewrite filter_strip by apply letter_not_stripped.
  now rewrite filter_letter_sub_runs, filter_letter_kept.
Qed.

Lemma name_char_not_letter (c : N) :
  name_char c -> letter c = false -> hyphen_or_underscore c = true.
Proof.
  unfold name_char, letter, hyphen_or_underscore, hyphen_or_space, is_word.
  intros [->|(Hw & Hs & Hh)]; [reflexivity|].
  apply N.eqb_neq in Hh. rewrite Hs, Hh. simpl.
  destruct (c =? underscore); [reflexivity|].
  rewrite orb_false_r in Hw. now rewrite Hw.
Qed.

Lemma sanitize_nil_iff (x : str) :
  sanitize x = [] <-> List.filter letter (normalize_NFKC x) = [].
Proof.
  rewrite <- filter_letter_sanitize. split; [now intros ->|].
  intros Hn. unfold sanitize. apply strip_nil. fold (sanitize x).
  pose proof (sanitize_chars x) as Hc.
  induction Hc as [|c s Hc Hs IH]; [constructor|].
  simpl in Hn. destruct (letter c) eqn:El; [discriminate|].
  constructor; [now apply name_char_not_letter | now apply IH].
Qed.
End MoreSanitize.

(** X1: the file name keeps every letter and digit of the normalized
    title, in its order, and gains none. *)
Theorem sanitize_keeps_letters `{PyRuntime} (x : str) :
  List.filter letter (sanitize x) = List.filter letter (normalize_NFKC x).
Proof. apply filter_letter_sanitize. Qed.

(** X2: the file name is empty, and the file the bare [.mp4], exactly when
    the normalized title has no letter or digit. *)
Theorem sanitize_empty_iff `{PyRuntime} (x : str) :
  sanitize x = [] <-> List.filter letter (normalize_NFKC x) = [].
Proof. apply sanitize_nil_iff. Qed.

(** ** Escaped URLs *)

Lemma unescape_cons (c : N) (s : str) :
  (c = backslash -> head s <> Some slash) ->
  unescape (c :: s) = c :: unescape s.
Proof.
  intros Hc. destruct s as [|d s]; [reflexivity|].
  change (unescape (c :: d :: s))
    with (if (c =? backslash) && (d =? slash)
          then slash :: unescape s else c :: unescape (d :: s)).
  destruct (N.eqb_spec c backslash) as [->|_]; [|reflexivity].
  destruct (N.eqb_spec d slash) as [->|_]; [|reflexivity].
  now elim (Hc eq_refl).
Qed.

Lemma escape_slashes_head (s : str) : head (escape_slashes s) <> Some slash.
Proof.
  destruct s as [|c s]; simpl; [discriminate|].
  destruct (N.eqb_spec c slash) as [->|Hc]; simpl; [discriminate|].
  intros [= ->]. contradiction.
Qed.

(** X3: [unescape] undoes the escaping of the slashes: whatever the URL,
    unescaping its escaped form gives it back. *)
Theorem unescape_escape_slashes (s : str) : unescape (escape_slashes s) = s.
Proof.
  induction s as [|c s IH]; [reflexivity|]. simpl.
  destruct (N.eqb_spec c slash) as [->|Hc].
  - change (slash :: unescape (escape_slashes s) = slash :: s). now rewrite IH.
  - rewrite unescape_cons; [now rewrite IH|].
    intros _. apply escape_slashes_head.
Qed.

Lemma contains_cons_false (p s : str) (c : N) :
  contains p (c :: s) = false ->
  lit p (c :: s) = None /\ contains p s = false.
Proof.
  change (contains p (c :: s))
    with (match lit p (c :: s) with
          | Some _ => true
          | None => contains p s
          end).
  destruct (lit p (c :: s)); [discriminate | now split].
Qed.

(** X4: a string in which no backslash stands before a slash is left as
    it is. *)
Theorem unescape_unescaped (s : str) :
  contains [backslash; slash] s = false -> unescape s = s.
Proof.
  induction s as [|c s IH]; [reflexivity|].
  intros [Hl Hs]%contains_cons_false.
  rewrite unescape_cons; [now rewrite IH|].
  intros -> Hh. destruct s as [|d s]; [discriminate|].
  injection Hh as ->. discriminate Hl.
Qed.

Lemma unescape_unescaped_witness :
  contains [backslash; slash] (u "http://x/a\b.mp4") = false
  /\ unescape (u "http://x/a\b.mp4") = u "http://x/a\b.mp4".
Proof.
  split; [reflexivity|].
  apply (unescape_unescaped (u "http://x/a\b.mp4")). reflexivity.
Defined.

(** ** The matches of the two patterns *)

Lemma lit_app (p s rest : str) : lit p s = Some rest -> s = p ++ rest.
Proof.
  revert s. induction p as [|a p IH]; intros s; simpl.
  - now intros [= ->].
  - destruct s as [|b s]; [discriminate|].
    destruct (N.eqb_spec a b) as [->|_]; [|discriminate].
    intros Hs. simpl. f_equal. now apply IH.
Qed.

Lemma span_app (f : N -> bool) (s a b : str) :
  span f s = (a, b) -> s = a ++ b /\ Forall (fun c => f c = true) a.
Proof.
  revert a b. induction s as [|c s IH]; intros a b; simpl.
  - intros [= <- <-]. split; [reflexivity | constructor].
  - destruct (f c) eqn:E.
    + destruct (span f s) as [a' b'].
      intros [= <- <-]. destruct (IH a' b' eq_refl) as [-> Ha].
      split; [reflexivity | now constructor].
    + intros [= <- <-]. split; [reflexivity | constructor].
Qed.

Section Matches.
Context `{PyRuntime}.

(** Steps through the binds of the option monad. *)
Ltac bind_some := cbn [mbind option_bind fst snd].
Ltac bind_none := cbn [mbind option_bind fst snd]; discriminate.

Lemma match_value_app (s value rest : str) :
  match_value s = Some (value, rest) ->
  exists ws,
    s = dquote :: u ":" ++ ws ++ [dquote] ++ value ++ [dquote] ++ rest
    /\ Forall (fun c => isspace c = true) ws
    /\ value <> [] /\ dquote ∉ value.
Proof.
  unfold match_value.
  destruct (lit (dquote :: u ":") s) as [s1|] eqn:E1; [|bind_none].
  bind_some. destruct (span isspace s1) as [ws s1'] eqn:Ew. bind_some.
  destruct (lit [dquote] s1') as [s2|] eqn:E2; [|bind_none].
  bind_some.
  destruct (span (fun c => negb (c =? dquote)) s2) as [v s3] eqn:Ev.
  destruct v as [|c v]; [bind_none|].
  destruct (lit [dquote] s3) as [s4|] eqn:E4; [|bind_none].
  bind_some. intros [= <- <-].
  apply lit_app in E1, E2, E4. apply span_app in Ew as [Hw Hws].
  apply span_app in Ev as [Hv Hvs]. subst.
  exists ws. repeat split; trivial; [bind_none|].
  intros Hin. rewrite Forall_forall in Hvs.
  specialize (Hvs _ Hin). discriminate Hvs.
Qed.

Lemma pattern_url_app (s number value rest : str) :
  pattern_url s = Some ((number, value), rest) ->
  exists ws,
    s = dquote :: u "url" ++ number ++ dquote :: u ":" ++ ws
        ++ [dquote] ++ value ++ [dquote] ++ rest
    /\ number <> []
    /\ Forall (fun c => isdecimal c = true) number
    /\ Forall (fun c => isspace c = true) ws
    /\ value <> [] /\ dquote ∉ value.
Proof.
  unfold pattern_url.
  destruct (lit (dquote :: u "url") s) as [s1|] eqn:E1; [|bind_none].
  bind_some. destruct (span isdecimal s1) as [n s2] eqn:En.
  destruct n as [|d n]; [bind_none|].
  destruct (match_value s2) as [[v s3]|] eqn:Ev; [|bind_none].
  bind_some. intros [= <- <- <-].
  apply lit_app in E1. apply span_app in En as [Hn Hns].
  apply match_value_app in Ev as (ws & Hv & Hws & Hne & Hq). subst.
  exists ws. repeat split; trivial. discriminate.
Qed.

Lemma findall_from_elem {G} (pattern : str -> option (G * str))
    (skip : nat) (s : str) (g : G) :
  g ∈ findall_from pattern skip s ->
  exists before t rest, s = before ++ t /\ pattern t = Some (g, rest).
Proof.
  revert skip. induction s as [|c s IH]; intros skip; simpl.
  - intros Hg. inversion Hg.
  - assert (forall k, g ∈ findall_from pattern k s ->
              exists before t rest,
                c :: s = before ++ t /\ pattern t = Some (g, rest)) as Hs.
    { intros k (before & t & rest & -> & Hp)%IH.
      now exists (c :: before), t, rest. }
    destruct skip as [|k]; [|apply Hs].
    destruct (pattern (c :: s)) as [[g' rest]|] eqn:Ep; [|apply Hs].
    intros [->|Hg]%elem_of_cons; [|exact (Hs _ Hg)].
    now exists [], (c :: s), rest.
Qed.
End Matches.

(** X5: every match of the URL pattern stands in the text: after the key
    [url] and a number of one decimal digit at least come a colon, white
    space, and between two quotes a value that is not empty and holds no
    quote. *)
Theorem findall_pattern_url_sound `{PyRuntime} (s number value : str) :
  (number, value) ∈ findall pattern_url s ->
  exists before ws rest,
    s = before ++ dquote :: u "url" ++ number ++ dquote :: u ":" ++ ws
               ++ [dquote] ++ value ++ [dquote] ++ rest
    /\ number <> []
    /\ Forall (fun c => isdecimal c = true) number
    /\ Forall (fun c => isspace c = true) ws
    /\ value <> [] /\ dquote ∉ value.
Proof.
  intros (before & t & rest & -> & Hp)%findall_from_elem.
  apply pattern_url_app in Hp as (ws & -> & Hrest).
  now exists before, ws, rest.
Qed.

(** ** The dictionary of the URLs *)

Section Dictionary.
Context `{PyRuntime}.

Lemma dict_of_lookup (matches : list (str * str)) (d d' : gmap Z str)
    (n : Z) :
  dict_of matches d = Ok d' ->
  d' !! n = match last_value n matches with
            | Some v => Some v
            | None => d !! n
            end.
Proof.
  revert d. induction matches as [|[number value] rest IH]; intros d; simpl.
  - now intros [= ->].
  - destruct (py_int number) as [k|] eqn:Ek; [|discriminate].
    intros Hd. rewrite (IH _ Hd).
    destruct (last_value n rest) as [v|]; [reflexivity|].
    case_bool_decide as Hk.
    + injection Hk as ->. apply lookup_insert_eq.
    + apply lookup_insert_ne. congruence.
Qed.

Lemma dict_of_parsed (matches : list (str * str)) (d d' : gmap Z str) :
  dict_of matches d = Ok d' ->
  Forall (fun m => is_Some (py_int m.1)) matches.
Proof.
  revert d. induction matches as [|[number value] rest IH]; intros d; simpl.
  - constructor.
  - destruct (py_int number) as [k|] eqn:Ek; [|discriminate].
    intros Hd. constructor; [simpl; rewrite Ek; eauto | eapply IH, Hd].
Qed.

Lemma dict_of_raise (matches : list (str * str)) (d : gmap Z str) (e : exn) :
  dict_of matches d = Raise e ->
  e = ValueError /\ Exists (fun m => py_int m.1 = None) matches.
Proof.
  revert d. induction matches as [|[number value] rest IH]; intros d; simpl.
  - discriminate.
  - destruct (py_int number) as [k|] eqn:Ek.
    + intros [-> Hr]%IH. split; [reflexivity | now right].
    + intros [= <-]. split; [reflexivity | now left].
Qed.
End Dictionary.

(** X6: the dictionary comprehension of line 52 raises only [ValueError],
    and only when [int] refuses one of the numbers; otherwise every number
    was read and the dictionary gives, for every resolution, the value of
    its last occurrence among the matches, and nothing for a resolution
    that does not occur. *)
Theorem dict_of_spec `{PyRuntime} (matches : list (str * str)) :
  match dict_of matches ∅ with
  | Ok videos =>
      Forall (fun m => is_Some (py_int m.1)) matches
      /\ forall n, videos !! n = last_value n matches
  | Raise e =>
      e = ValueError /\ Exists (fun m => py_int m.1 = None) matches
  end.
Proof.
  destruct (dict_of matches ∅) as [videos|e] eqn:E.
  - split; [exact (dict_of_parsed _ _ _ E)|].
    intros n. rewrite (dict_of_lookup _ _ _ n E).
    destruct (last_value n matches); [reflexivity | apply lookup_empty].
  - exact (dict_of_raise _ _ _ E).
Qed.

(** ** The scripts that are kept *)

Lemma lit_Some_iff (p s : str) :
  is_Some (lit p s) <-> exists b, s = p ++ b.
Proof.
  split.
  - intros [rest Hr]. exists rest. now apply lit_app.
  - intros [b ->]. induction p as [|a p IH]; simpl; [eauto|].
    now rewrite N.eqb_refl.
Qed.

Lemma contains_infix (p s : str) :
  contains p s = true <-> exists a b, s = a ++ p ++ b.
Proof.
  induction s as [|c s IH].
  - simpl. destruct (lit p []) as [r|] eqn:E.
    + split; [intros _|reflexivity].
      exists [], r. exact (lit_app _ _ _ E).
    + split; [discriminate|]. intros (a & b & Hs).
      assert (is_Some (lit p [])) as [r Hr].
      { apply lit_Some_iff. destruct a; [now exists b | discriminate Hs]. }
      congruence.
  - change (contains p (c :: s))
      with (match lit p (c :: s) with
            | Some _ => true
            | None => contains p s
            end).
    destruct (lit p (c :: s)) as [r|] eqn:E.
    + split; [intros _|reflexivity].
      exists [], r. exact (lit_app _ _ _ E).
    + rewrite IH. split.
      * intros (a & b & ->). now exists (c :: a), b.
      * intros (a & b & Hs). destruct a as [|c' a].
        -- assert (is_Some (lit p (c :: s))) as [r Hr].
           { apply lit_Some_iff. now exists b. }
           congruence.
        -- injection Hs as _ ->. now exists a, b.
Qed.

(** X7: the scripts kept by lines 43 and 44 are the tags of the page named
    [script] whose attribute [type] is [module] and whose text has
    [al_video.php] somewhere in it. *)
Theorem elements_of_spec (doc : list element) (e : element) :
  e ∈ elements_of doc
  <-> e ∈ doc
      /\ tag_name e = u "script"
      /\ get_attr (u "type") (attrs e) = Some (u "module")
      /\ exists a b, text e = a ++ u "al_video.php" ++ b.
Proof.
  unfold elements_of, find_all.
  rewrite !list_elem_of_In, !filter_In, contains_infix, andb_true_iff.
  unfold str_eqb. rewrite bool_decide_eq_true.
  destruct (get_attr (u "type") (attrs e)) as [v|].
  - rewrite bool_decide_eq_true. split.
    + intros [(? & ? & ->) ?]. auto.
    + intros (? & ? & [= ->] & ?). auto.
  - split; [intros [(_ & _ & Hf) _]; discriminate Hf|].
    intros (_ & _ & Hf & _). discriminate Hf.
Qed.

(** ** What [get_videos] returns *)

Lemma get_videos_prints `{PyRuntime} (session : Session) (path : str)
    (c c0 : console) :
  (get_videos session path c).2 = print (GettingVideos path) c
  /\ (get_videos session path c).1 = (get_videos session path c0).1.
Proof.
  unfold get_videos.
  destruct (session path) as [r|e]; [|now split].
  destruct (negb _); [now split|].
  destruct (elements_of (soup r)) as [|e l]; [now split|].
  destruct (dict_of _ _); [|now split].
  destruct (findall pattern_name (text e)); now split.
Qed.

(** X8: whatever the page and the outcome, [get_videos] prints its one
    line and reads nothing; and what it returns does not depend on the
    console. *)
Theorem get_videos_console `{PyRuntime} (session : Session) (path : str)
    (c c0 : console) :
  (get_videos session path c).2 = print (GettingVideos path) c
  /\ (get_videos session path c).1 = (get_videos session path c0).1.
Proof. apply get_videos_prints. Qed.

Lemma get_videos_cases `{PyRuntime} (session : Session) (path : str)
    (c : console) (videos : gmap Z str) (filename : option str) :
  (get_videos session path c).1 = Ok (videos, filename) ->
  exists r,
    session path = Ok r
    /\ match filename with
       | None => videos = ∅ /\ length (elements_of (soup r)) <> 1%nat
       | Some f =>
           exists e name rest,
             elements_of (soup r) = [e]
             /\ dict_of (findall pattern_url (text e)) ∅ = Ok videos
             /\ findall pattern_name (text e) = name :: rest
             /\ f = sanitize name ++ u ".mp4"
       end.
Proof.
  unfold get_videos.
  destruct (session path) as [r|e]; [|discriminate].
  intros Hr. exists r. split; [reflexivity|]. revert Hr.
  destruct (Nat.eqb_spec (length (elements_of (soup r))) 1) as [Hl|Hl]; simpl.
  - destruct (elements_of (soup r)) as [|e [|e' l]]; try discriminate Hl.
    destruct (dict_of _ _) as [d|] eqn:Ed; [|discriminate].
    destruct (findall pattern_name (text e)) as [|name rest] eqn:En;
      [discriminate|].
    intros [= <- <-]. now exists e, name, rest.
  - intros [= <- <-]. now split.
Qed.

(** X9: when [get_videos] returns, either the file name is [None] and the
    dictionary empty, the page having no metadata block or several; or the
    page has one block, the dictionary is that of its URL matches and the
    file name is the sanitized first title of the block followed by
    [.mp4]. *)
Theorem get_videos_returns `{PyRuntime} (session : Session) (path : str)
    (c : console) (videos : gmap Z str) (filename : option str) :
  (get_videos session path c).1 = Ok (videos, filename) ->
  exists r,
    session path = Ok r
    /\ match filename with
       | None => videos = ∅ /\ length (elements_of (soup r)) <> 1%nat
       | Some f =>
           exists e name rest,
             elements_of (soup r) = [e]
             /\ dict_of (findall pattern_url (text e)) ∅ = Ok videos
             /\ findall pattern_name (text e) = name :: rest
             /\ f = sanitize name ++ u ".mp4"
       end.
Proof. apply get_videos_cases. Qed.

Lemma get_videos_returns_witness :
  (@get_videos Excerpt.runtime (Examples.serve Examples.bang) (u "p")
     Examples.quiet).1
  = Ok ({[ 720%Z := u "http:\/\/x\/a.mp4" ]}, Some (u ".mp4"))
  /\ exists r,
       Examples.serve Examples.bang (u "p") = Ok r
       /\ exists e name rest,
            elements_of (soup r) = [e]
            /\ @dict_of Excerpt.runtime
                 (findall (@pattern_url Excerpt.runtime) (text e)) ∅
               = Ok {[ 720%Z := u "http:\/\/x\/a.mp4" ]}
            /\ findall pattern_name (text e) = name :: rest
            /\ u ".mp4" = @sanitize Excerpt.runtime name ++ u ".mp4".
Proof.
  split; [vm_compute; reflexivity|].
  apply (@get_videos_returns Excerpt.runtime (Examples.serve Examples.bang)
           (u "p") Examples.quiet {[ 720%Z := u "http:\/\/x\/a.mp4" ]}
           (Some (u ".mp4"))).
  vm_compute. reflexivity.
Defined.

(** ** The options and the choice *)

(** X10: the options offered are the resolutions of the dictionary, each
    once, in increasing order. *)
Theorem sorted_keys_spec (videos : gmap Z str) :
  StronglySorted Z.le (sorted_keys videos)
  /\ NoDup (sorted_keys videos)
  /\ (forall r, r ∈ sorted_keys videos <-> is_Some (videos !! r))
  /\ length (sorted_keys videos) = size videos.
Proof.
  unfold sorted_keys. repeat split.
  - apply StronglySorted_merge_sort; apply _.
  - rewrite merge_sort_Permutation. apply NoDup_fst_map_to_list.
  - rewrite merge_sort_Permutation.
    intros ([r' url] & -> & Hin)%list_elem_of_fmap.
    exists url. now apply elem_of_map_to_list.
  - rewrite merge_sort_Permutation. intros [url Hr].
    apply list_elem_of_fmap. exists (r, url).
    split; [reflexivity | now apply elem_of_map_to_list].
  - rewrite merge_sort_Permutation, length_fmap. apply length_map_to_list.
Qed.

(** X11: with no option at all [get_resolution] never returns: it turns
    every line down and ends with [EOFError] when the input does. *)
Theorem get_resolution_no_option `{PyRuntime} (c : console) :
  get_resolution [] c
  = (Raise EOFError,
     {| stdin := [];
        stdout := stdout c ++ rounds [] (stdin c) ++ [SelectResolution []] |}).
Proof.
  unfold get_resolution.
  destruct (get_resolution_loop_spec [] (stdin c) (stdout c))
    as [(before & line & rest & r & _ & _ & _ & Hin & _)|[_ E]].
  - inversion Hin.
  - exact E.
Qed.

Lemma main_body_cases `{PyRuntime} (videos : gmap Z str)
    (filename : option str) (c : console) :
  match main_body videos filename c with
  | (Ok None, c') => videos = ∅ /\ c' = print NoVideosFound c
  | (Ok (Some (f, url)), _) =>
      videos <> ∅ /\ f = filename
      /\ exists r raw, videos !! r = Some raw /\ url = unescape raw
  | (Raise e, _) => e = EOFError /\ (1 < size videos)%nat
  end.
Proof.
  unfold main_body. case_bool_decide as Hs.
  - split; [now apply map_size_empty_iff | reflexivity].
  - assert (videos <> ∅) as Hv by now apply map_size_non_empty_iff.
    case_bool_decide as Hm.
    + destruct (get_resolution (sorted_keys videos) c) as [[r|e] c'] eqn:E.
      * apply get_resolution_member, sorted_keys_lookup in E as [raw Hr].
        rewrite Hr. repeat split; trivial. now exists r, raw.
      * split; [|exact Hm]. exact (get_resolution_raises _ _ _ _ E).
    + destruct (map_to_list videos) as [|[r raw] l] eqn:El.
      * now apply map_to_list_empty_iff in El.
      * simpl. repeat split; trivial. exists r, raw. split; [|reflexivity].
        apply elem_of_map_to_list. rewrite El. left.
Qed.

(** X12: the body of the loop of [main] skips the page exactly when the
    dictionary is empty. Otherwise the download gets the file name as
    [get_videos] returned it and the unescaped URL of a resolution of the
    dictionary: neither [videos[selected_resolution]] nor the index 0 of
    the values ever raises. The only exception is the [EOFError] of
    [get_resolution], with several resolutions. *)
Theorem main_body_spec `{PyRuntime} (videos : gmap Z str)
    (filename : option str) (c : console) :
  match main_body videos filename c with
  | (Ok None, c') => videos = ∅ /\ c' = print NoVideosFound c
  | (Ok (Some (f, url)), _) =>
      videos <> ∅ /\ f = filename
      /\ exists r raw, videos !! r = Some raw /\ url = unescape raw
  | (Raise e, _) => e = EOFError /\ (1 < size videos)%nat
  end.
Proof. apply main_body_cases. Qed.

(** X13: with several resolutions, the download is that of the resolution
    read from the first acceptable line, and the lines after it stay on
    the input for the next page. *)
Theorem main_body_selects `{PyRuntime} (videos : gmap Z str)
    (filename : option str) (c : console) (before rest : list str)
    (line raw : str) (r : Z) :
  (1 < size videos)%nat ->
  stdin c = before ++ line :: rest ->
  Forall (rejected (sorted_keys videos)) before ->
  py_int (strip isspace line) = Some r ->
  videos !! r = Some raw ->
  main_body videos filename c
  = (Ok (Some (filename, unescape raw)),
     {| stdin := rest;
        stdout := stdout c ++ rounds (sorted_keys videos) before
                           ++ [SelectResolution (sorted_keys videos)] |}).
Proof.
  intros Hm Hin Hb Hr Hraw. unfold main_body.
  rewrite bool_decide_eq_false_2 by lia.
  rewrite bool_decide_eq_true_2 by exact Hm.
  assert (r ∈ sorted_keys videos) as Hmem.
  { unfold sorted_keys. rewrite merge_sort_Permutation.
    apply list_elem_of_fmap. exists (r, raw).
    split; [reflexivity | now apply elem_of_map_to_list]. }
  unfold get_resolution.
  destruct (get_resolution_loop_spec (sorted_keys videos) (stdin c)
              (stdout c))
    as [(before' & line' & rest' & r' & Hin' & Hb' & Hr' & Hmem' & E)|[Hall E]].
  - assert (before' = before /\ line' = line /\ rest' = rest) as (-> & -> & ->).
    { rewrite Hin in Hin'. clear E Hin.
      revert before' Hin' Hb'. induction Hb as [|l before Hl Hb IH];
        intros before' Hin' Hb'.
      - destruct before' as [|l' before'].
        + now injection Hin' as -> ->.
        + injection Hin' as -> _. apply Forall_cons in Hb' as [Hl' _].
          now elim (Hl' r Hr).
      - destruct before' as [|l' before'].
        + injection Hin' as -> _. now elim (Hl r' Hr').
        + injection Hin' as -> Hin'. apply Forall_cons in Hb' as [_ Hb'].
          destruct (IH before' Hin' Hb') as (-> & -> & ->). auto. }
    rewrite E. assert (r' = r) as -> by congruence. now rewrite Hraw.
  - rewrite Hin in Hall. apply Forall_app in Hall as [_ Hall].
    apply Forall_cons in Hall as [Hl _]. now elim (Hl r Hr).
Qed.

Lemma main_body_selects_witness :
  (1 < size ({[ 720%Z := u "a"; 1080%Z := u "b" ]} : gmap Z str))%nat
  /\ stdin {| stdin := [u "x"; u " 1080 "; u "y"]; stdout := [] |}
     = [u "x"] ++ u " 1080 " :: [u "y"]
  /\ Forall (@rejected Excerpt.runtime
               (sorted_keys {[ 720%Z := u "a"; 1080%Z := u "b" ]}))
       [u "x"]
  /\ @py_int Excerpt.runtime (strip isspace (u " 1080 ")) = Some 1080%Z
  /\ ({[ 720%Z := u "a"; 1080%Z := u "b" ]} : gmap Z str) !! 1080%Z
     = Some (u "b")
  /\ @main_body Excerpt.runtime {[ 720%Z := u "a"; 1080%Z := u "b" ]}
       (Some (u "t.mp4"))
       {| stdin := [u "x"; u " 1080 "; u "y"]; stdout := [] |}
     = (Ok (Some (Some (u "t.mp4"), unescape (u "b"))),
        {| stdin := [u "y"];
           stdout :=
             [] ++ @rounds Excerpt.runtime
                     (sorted_keys {[ 720%Z := u "a"; 1080%Z := u "b" ]})
                     [u "x"]
                ++ [SelectResolution
                      (sorted_keys {[ 720%Z := u "a"; 1080%Z := u "b" ]})] |}).
Proof.
  assert (Forall (@rejected Excerpt.runtime
                    (sorted_keys {[ 720%Z := u "a"; 1080%Z := u "b" ]}))
            [u "x"]) as Hx.
  { constructor; [|constructor]. intros n Hn. discriminate Hn. }
  split; [vm_compute; lia|]. split; [reflexivity|]. split; [exact Hx|].
  split; [reflexivity|]. split; [reflexivity|].
  apply (@main_body_selects Excerpt.runtime
           {[ 720%Z := u "a"; 1080%Z := u "b" ]} (Some (u "t.mp4"))
           {| stdin := [u "x"; u " 1080 "; u "y"]; stdout := [] |}
           [u "x"] [u "y"] (u " 1080 ") (u "b") 1080%Z).
  - vm_compute. lia.
  - reflexivity.
  - exact Hx.
  - reflexivity.
  - reflexivity.
Defined.

(** ** The loop over the pages *)

Section Loop.
Context `{PyRuntime}.

Lemma main_loop_acc (session : Session) (paths : list str) (c : console)
    (download_files : list job) :
  main_loop session paths c download_files
  = match main_loop session paths c [] with
    | (Ok new, c') => (Ok (download_files ++ new), c')
    | (Raise e, c') => (Raise e, c')
    end.
Proof.
  revert c download_files.
  induction paths as [|path paths IH]; intros c download_files; simpl.
  - now rewrite app_nil_r.
  - destruct (get_videos session path c) as [[[videos filename]|e] c1];
      [|reflexivity].
    destruct (main_body videos filename c1) as [[[j|]|e] c2];
      [| apply IH | reflexivity].
    rewrite (IH c2 (download_files ++ [j])), (IH c2 [j]).
    destruct (main_loop session paths c2 []) as [[new|e] c3]; [|reflexivity].
    now rewrite <- app_assoc.
Qed.

Lemma main_loop_concat (session : Session) (paths1 paths2 : list str)
    (c : console) (download_files : list job) :
  main_loop session (paths1 ++ paths2) c download_files
  = match main_loop session paths1 c download_files with
    | (Ok found, c') => main_loop session paths2 c' found
    | (Raise e, c') => (Raise e, c')
    end.
Proof.
  revert c download_files.
  induction paths1 as [|path paths1 IH]; intros c download_files; simpl.
  - reflexivity.
  - destruct (get_videos session path c) as [[[videos filename]|e] c1];
      [|reflexivity].
    destruct (main_body videos filename c1) as [[[j|]|e] c2];
      [apply IH | apply IH | reflexivity].
Qed.

Lemma main_loop_found (session : Session) (paths : list str) (c c' : console)
    (found : list job) :
  main_loop session paths c [] = (Ok found, c') ->
  (length found <= length paths)%nat
  /\ exists pages,
       sublist pages paths /\ Forall2 (from_page session) pages found.
Proof.
  revert c c' found.
  induction paths as [|path paths IH]; intros c c' found; simpl.
  - intros [= <- _]. split; [reflexivity|]. exists []. split; constructor.
  - destruct (get_videos session path c) as [[[videos filename]|e] c1] eqn:Eg;
      [|discriminate].
    pose proof (main_body_cases videos filename c1) as Hb.
    destruct (main_body videos filename c1) as [[[[f url]|]|e] c2];
      [| | discriminate].
    + rewrite main_loop_acc.
      destruct (main_loop session paths c2 []) as [[new|e] c3] eqn:El;
        [|discriminate].
      intros [= <- _]. destruct (IH _ _ _ El) as (Hlen & pages & Hsub & Hall).
      split; [simpl; lia|]. exists (path :: pages).
      split; [now constructor|]. constructor; [|exact Hall].
      destruct Hb as (Hv & -> & r & raw & Hraw & ->).
      destruct (get_videos_cases session path c videos filename)
        as (resp & _ & Hf); [now rewrite Eg|].
      destruct filename as [f|]; [|now destruct Hf].
      destruct Hf as (e & name & rest & _ & _ & _ & ->).
      exists videos, name, r, raw, c. rewrite Eg. now repeat split.
    + intros El. destruct (IH _ _ _ El) as (Hlen & pages & Hsub & Hall).
      split; [lia|]. exists pages. split; [now constructor | exact Hall].
Qed.

Lemma main_loop_skips (session : Session) (paths : list str) (c : console)
    (download_files : list job) :
  (forall path, path ∈ paths ->
     exists filename, (get_videos session path c).1 = Ok (∅, filename)) ->
  main_loop session paths c download_files
  = (Ok download_files,
     {| stdin := stdin c;
        stdout := stdout c
                  ++ flat_map (fun path => [GettingVideos path; NoVideosFound])
                       paths |}).
Proof.
  revert c. induction paths as [|path paths IH]; intros c Hp; simpl.
  - rewrite app_nil_r. now destruct c.
  - destruct (Hp path) as [filename Hf]; [left|].
    pose proof (get_videos_prints session path c c) as [Hc _].
    destruct (get_videos session path c) as [r c1]. simpl in *. subst.
    unfold main_body. rewrite map_size_empty. simpl.
    rewrite IH.
    + simpl. now rewrite <- !app_assoc.
    + intros p Hin. destruct (Hp p) as [f Hf']; [now right|].
      exists f. rewrite <- Hf'. apply get_videos_prints.
Qed.
End Loop.

(** X14: the loop over a list of pages followed by another is the loop
    over the first, then the loop over the second on the console and with
    the downloads that the first left; an exception in the first ends
    both. *)
Theorem main_loop_app `{PyRuntime} (session : Session)
    (paths1 paths2 : list str) (c : console) (download_files : list job) :
  main_loop session (paths1 ++ paths2) c download_files
  = match main_loop session paths1 c download_files with
    | (Ok found, c') => main_loop session paths2 c' found
    | (Raise e, c') => (Raise e, c')
    end.
Proof. apply main_loop_concat. Qed.

(** X15: when the loop over the pages ends without exception, it has found
    one download per page at most: the downloads are, in their order,
    those of some of the pages in the order of the command line. Each has
    the file name that [get_videos] returned for its page, which ends
    with [.mp4] and is never [None], and as URL the unescaped value of one
    of the resolutions of that page. *)
Theorem main_loop_downloads `{PyRuntime} (session : Session)
    (paths : list str) (c c' : console) (found : list job) :
  main_loop session paths c [] = (Ok found, c') ->
  (length found <= length paths)%nat
  /\ exists pages,
       sublist pages paths /\ Forall2 (from_page session) pages found.
Proof. apply main_loop_found. Qed.

Lemma main_loop_downloads_witness :
  @main_loop Excerpt.runtime Site.session [u "none"; u "good"] Examples.quiet
    []
  = (Ok [(Some (u "t.mp4"), u "http://x/a.mp4")],
     {| stdin := [];
        stdout := [GettingVideos (u "none"); NoVideosFound;
                   GettingVideos (u "good")] |})
  /\ (length [(Some (u "t.mp4"), u "http://x/a.mp4")]
      <= length [u "none"; u "good"])%nat
  /\ exists pages,
       sublist pages [u "none"; u "good"]
       /\ Forall2 (@from_page Excerpt.runtime Site.session) pages
            [(Some (u "t.mp4"), u "http://x/a.mp4")].
Proof.
  split; [vm_compute; reflexivity|].
  apply (@main_loop_downloads Excerpt.runtime Site.session
           [u "none"; u "good"] Examples.quiet
           {| stdin := [];
              stdout := [GettingVideos (u "none"); NoVideosFound;
                         GettingVideos (u "good")] |}
           [(Some (u "t.mp4"), u "http://x/a.mp4")]).
  vm_compute. reflexivity.
Defined.

(** ** Whole runs *)

Lemma run_tasks_nil {A B S} (func : A -> S -> result B * S)
    (order : list nat) (st : S) :
  run_tasks func order [] st = ([], st).
Proof. induction order as [|i order IH]; simpl; [reflexivity | exact IH]. Qed.

Lemma pool_map_nil {A B S} (func : A -> S -> result B * S)
    (processes : nat) (order : list nat) (st : S) :
  pool_map func processes order [] st = (Ok [], st).
Proof.
  unfold pool_map. change (chunks_of processes []) with (@nil (list A)).
  now rewrite run_tasks_nil.
Qed.

(** X16: when no page of the command line has a video, [main] prints for
    each its line and the error, then the line of the downloads; it reads
    nothing, writes no file and ends without exception. This holds for no
    page at all. *)
Theorem main_nothing_found `{PyRuntime} (session : Session)
    (order : list nat) (paths : list str) (c : console)
    (fs : gmap str bytes) :
  (forall path, path ∈ paths ->
     exists filename, (get_videos session path c).1 = Ok (∅, filename)) ->
  main session order paths c fs
  = (Ok tt,
     {| stdin := stdin c;
        stdout := stdout c
                  ++ flat_map (fun path => [GettingVideos path; NoVideosFound])
                       paths
                  ++ [Downloading] |},
     fs).
Proof.
  intros Hp. unfold main, download_all.
  rewrite main_loop_skips by exact Hp.
  rewrite pool_map_nil. unfold print. simpl. now rewrite <- app_assoc.
Qed.

Lemma main_nothing_found_witness :
  (forall path, path ∈ [u "none"; u "none"] ->
     exists filename,
       (@get_videos Excerpt.runtime Site.session path Examples.quiet).1
       = Ok (∅, filename))
  /\ @main Excerpt.runtime Site.session [] [u "none"; u "none"] Examples.quiet
       Examples.disk
     = (Ok tt,
        {| stdin := stdin Examples.quiet;
           stdout := stdout Examples.quiet
                     ++ flat_map
                          (fun path => [GettingVideos path; NoVideosFound])
                          [u "none"; u "none"]
                     ++ [Downloading] |},
        Examples.disk).
Proof.
  assert (forall path, path ∈ [u "none"; u "none"] ->
            exists filename,
              (@get_videos Excerpt.runtime Site.session path Examples.quiet).1
              = Ok (∅, filename)) as Hp.
  { intros path Hin. exists None.
    apply elem_of_cons in Hin as [->|Hin]; [reflexivity|].
    apply elem_of_cons in Hin as [->|Hin]; [reflexivity | inversion Hin]. }
  split; [exact Hp|].
  apply (@main_nothing_found Excerpt.runtime Site.session []
           [u "none"; u "none"] Examples.quiet Examples.disk Hp).
Defined.

(** X17: an exception of [get_videos] on any page ends the run before the
    pool is made: no file is written, not even for the pages that were
    read before. *)
Theorem main_extraction_failure `{PyRuntime} (session : Session)
    (order : list nat) (before after : list str) (path : str)
    (c c1 c2 : console) (found : list job) (e : exn)
    (fs : gmap str bytes) :
  main_loop session before c [] = (Ok found, c1) ->
  get_videos session path c1 = (Raise e, c2) ->
  main session order (before ++ path :: after) c fs = (Raise e, c2, fs).
Proof.
  intros Hb Hg. unfold main. rewrite main_loop_concat, Hb. simpl.
  now rewrite Hg.
Qed.

Lemma main_extraction_failure_witness :
  @main_loop Excerpt.runtime Site.session [u "good"] Examples.quiet []
  = (Ok [(Some (u "t.mp4"), u "http://x/a.mp4")],
     print (GettingVideos (u "good")) Examples.quiet)
  /\ @get_videos Excerpt.runtime Site.session (u "bad")
       (print (GettingVideos (u "good")) Examples.quiet)
     = (Raise IndexError,
        print (GettingVideos (u "bad"))
          (print (GettingVideos (u "good")) Examples.quiet))
  /\ @main Excerpt.runtime Site.session [0%nat]
       ([u "good"] ++ u "bad" :: [u "good"]) Examples.quiet ∅
     = (Raise IndexError,
        print (GettingVideos (u "bad"))
          (print (GettingVideos (u "good")) Examples.quiet),
        ∅).
Proof.
  split; [vm_compute; reflexivity|]. split; [vm_compute; reflexivity|].
  apply (@main_extraction_failure Excerpt.runtime Site.session [0%nat]
           [u "good"] [u "good"] (u "bad") Examples.quiet
           (print (GettingVideos (u "good")) Examples.quiet)
           (print (GettingVideos (u "bad"))
              (print (GettingVideos (u "good")) Examples.quiet))
           [(Some (u "t.mp4"), u "http://x/a.mp4")] IndexError ∅).
  - vm_compute. reflexivity.
  - vm_compute. reflexivity.
Defined.

(** ** More on [download_file] *)

Lemma write_chunks_concat (chunks : list bytes) (f : bytes) :
  write_chunks chunks f = f ++ concat chunks.
Proof.
  revert f. induction chunks as [|chunk chunks IH]; intros f; simpl.
  - now rewrite app_nil_r.
  - rewrite IH. destruct chunk; [reflexivity|]. now rewrite <- app_assoc.
Qed.

Lemma download_file_written `{PyRuntime} (session : Session) (name url : str)
    (fs : gmap str bytes) (r : response) (n : Z) :
  session url = Ok r ->
  raise_for_status r = Ok tt ->
  total_size r = Some n ->
  download_file session (Some name) url fs
  = match open_error name with
    | Some e => (Raise e, fs)
    | None =>
        (match stream_error r with Some e => Raise e | None => Ok tt end,
         <[name := concat (iter_content r)]> fs)
    end.
Proof.
  intros Hr Hs Hn. unfold download_file. rewrite Hr, Hs, Hn.
  destruct (open_error name); [reflexivity|].
  rewrite write_chunks_concat. simpl. now destruct (stream_error r).
Qed.

(** X18: when the status is no error and the length header, if any, is an
    integer, the destination is opened. When [open] refuses the name, its
    exception is raised and the file system is as it was. Otherwise the
    file ends up holding the bytes of the chunks that arrived, in their
    order, whatever it held before, and the call returns, or raises what
    ended the stream. *)
Theorem download_file_content `{PyRuntime} (session : Session) (name url : str)
    (fs : gmap str bytes) (r : response) (n : Z) :
  session url = Ok r ->
  raise_for_status r = Ok tt ->
  total_size r = Some n ->
  download_file session (Some name) url fs
  = match open_error name with
    | Some e => (Raise e, fs)
    | None =>
        (match stream_error r with Some e => Raise e | None => Ok tt end,
         <[name := concat (iter_content r)]> fs)
    end.
Proof. apply download_file_written. Qed.

Lemma download_file_content_witness :
  Site.session (u "http://x/a.mp4")
  = Ok (Examples.answer 200 [[Byte.x01; Byte.x02]; []; [Byte.x03]])
  /\ raise_for_status
       (Examples.answer 200 [[Byte.x01; Byte.x02]; []; [Byte.x03]]) = Ok tt
  /\ @total_size Excerpt.runtime
       (Examples.answer 200 [[Byte.x01; Byte.x02]; []; [Byte.x03]])
     = Some 0%Z
  /\ @download_file Excerpt.runtime Site.session (Some (u "a.mp4"))
       (u "http://x/a.mp4") Examples.disk
     = (Ok tt, {[ u "a.mp4" := [Byte.x01; Byte.x02; Byte.x03] ]}).
Proof.
  split; [reflexivity|]. split; [reflexivity|]. split; [reflexivity|].
  rewrite (@download_file_content Excerpt.runtime Site.session (u "a.mp4")
             (u "http://x/a.mp4") Examples.disk
             (Examples.answer 200 [[Byte.x01; Byte.x02]; []; [Byte.x03]])
             0%Z eq_refl eq_refl eq_refl).
  vm_compute. reflexivity.
Defined.

Lemma download_file_other `{PyRuntime} (session : Session)
    (filename : option str) (url other : str) (fs : gmap str bytes) :
  filename <> Some other ->
  (download_file session filename url fs).2 !! other = fs !! other.
Proof.
  intros Hne. unfold download_file.
  destruct (session url) as [r|e]; [|reflexivity].
  destruct (raise_for_status r); [|reflexivity].
  destruct (total_size r); [|reflexivity].
  destruct filename as [name|]; [|reflexivity].
  destruct (open_error name); [reflexivity|].
  assert (name <> other) as Hn by congruence.
  destruct (stream_error r); simpl; now rewrite lookup_insert_ne.
Qed.

(** X19: whatever the outcome, [download_file] leaves every file but its
    destination as it was. *)
Theorem download_file_frame `{PyRuntime} (session : Session)
    (filename : option str) (url other : str) (fs : gmap str bytes) :
  filename <> Some other ->
  (download_file session filename url fs).2 !! other = fs !! other.
Proof. apply download_file_other. Qed.

Lemma download_file_frame_witness :
  Some (u "b.mp4") <> Some (u "a.mp4")
  /\ (@download_file Excerpt.runtime Site.session (Some (u "b.mp4"))
        (u "http://x/a.mp4") Examples.disk).2 !! u "a.mp4"
     = Examples.disk !! u "a.mp4".
Proof.
  split; [discriminate|].
  apply (@download_file_frame Excerpt.runtime Site.session (Some (u "b.mp4"))
           (u "http://x/a.mp4") (u "a.mp4") Examples.disk).
  discriminate.
Defined.

(** X20: a length header that [int] refuses raises [ValueError] before the
    file is opened: the file system is as it was. *)
Theorem download_file_bad_length `{PyRuntime} (session : Session)
    (filename : option str) (url header : str) (fs : gmap str bytes)
    (r : response) :
  session url = Ok r ->
  raise_for_status r = Ok tt ->
  content_length r = Some header ->
  py_int header = None ->
  download_file session filename url fs = (Raise ValueError, fs).
Proof.
  intros Hr Hs Hh Hi. unfold download_file, total_size.
  now rewrite Hr, Hs, Hh, Hi.
Qed.

Lemma download_file_bad_length_witness :
  Site.garbled (u "http://x/a.mp4")
  = Ok {| status_code := 200; content_length := Some (u "many"); soup := [];
          iter_content := [[Byte.x01]]; stream_error := None |}
  /\ raise_for_status
       {| status_code := 200; content_length := Some (u "many"); soup := [];
          iter_content := [[Byte.x01]]; stream_error := None |} = Ok tt
  /\ content_length
       {| status_code := 200; content_length := Some (u "many"); soup := [];
          iter_content := [[Byte.x01]]; stream_error := None |}
     = Some (u "many")
  /\ @py_int Excerpt.runtime (u "many") = None
  /\ @download_file Excerpt.runtime Site.garbled (Some (u "a.mp4"))
       (u "http://x/a.mp4") Examples.disk
     = (Raise ValueError, Examples.disk).
Proof.
  repeat (split; [reflexivity|]).
  apply (@download_file_bad_length Excerpt.runtime Site.garbled
           (Some (u "a.mp4")) (u "http://x/a.mp4") (u "many") Examples.disk
           {| status_code := 200; content_length := Some (u "many");
              soup := []; iter_content := [[Byte.x01]];
              stream_error := None |});
    reflexivity.
Defined.

(** ** The files after the pool *)

Section PoolState.
Context {A B S : Type}.
Variable func : A -> S -> result B * S.
Variable I : S -> Prop.

Lemma mapstar_invariant (chunk : list A) (st : S) :
  (forall x st, x ∈ chunk -> I st -> I (func x st).2) ->
  I st -> I (mapstar func chunk st).2.
Proof.
  revert st. induction chunk as [|x chunk IH]; intros st Hf Hst; simpl.
  - exact Hst.
  - pose proof (Hf x st ltac:(left) Hst) as Hx.
    destruct (func x st) as [[b|e] st1]; simpl in *; [|exact Hx].
    assert (I (mapstar func chunk st1).2) as Hc.
    { apply IH; [|exact Hx]. intros y st' Hy. apply Hf. now right. }
    destruct (mapstar func chunk st1) as [[bs|e] st2]; exact Hc.
Qed.

Lemma run_tasks_invariant (order : list nat) (tasks : list (list A))
    (st : S) :
  (forall x st, x ∈ concat tasks -> I st -> I (func x st).2) ->
  I st -> I (run_tasks func order tasks st).2.
Proof.
  intros Hf. revert st. induction order as [|i order IH]; intros st Hst; simpl.
  - exact Hst.
  - destruct (tasks !! i) as [chunk|] eqn:Ei; [|now apply IH].
    assert (I (mapstar func chunk st).2) as Hc.
    { apply mapstar_invariant; [|exact Hst].
      intros x st' Hx. apply Hf. apply list_elem_of_In, in_concat.
      exists chunk. split; apply list_elem_of_In; [|exact Hx].
      apply list_elem_of_lookup. now exists i. }
    destruct (mapstar func chunk st) as [r st1]. simpl in Hc.
    specialize (IH st1 Hc).
    destruct (run_tasks func order tasks st1) as [rs st2]. exact IH.
Qed.

Lemma pool_map_invariant (processes : nat) (order : list nat)
    (iterable : list A) (st : S) :
  (forall x st, x ∈ iterable -> I st -> I (func x st).2) ->
  I st -> I (pool_map func processes order iterable st).2.
Proof.
  intros Hf Hst. unfold pool_map.
  assert (I (run_tasks func order (chunks_of processes iterable) st).2) as Hr.
  { apply run_tasks_invariant; [|exact Hst].
    now rewrite concat_chunks_of. }
  destruct (run_tasks func order (chunks_of processes iterable) st)
    as [answers st1].
  now destruct (first_exception answers).
Qed.
End PoolState.

(** X21: whatever the order of the chunks and the outcome, the pool
    leaves as it was every file that is the destination of none of the
    downloads. *)
Theorem download_all_frame `{PyRuntime} (session : Session)
    (order : list nat) (download_files : list job) (fs : gmap str bytes)
    (other : str) :
  Forall (fun j => j.1 <> Some other) download_files ->
  (download_all session order download_files fs).2 !! other = fs !! other.
Proof.
  intros Hj. unfold download_all.
  apply (pool_map_invariant (worker session)
           (fun st => st !! other = fs !! other)); [|reflexivity].
  intros j st Hin Hst. rewrite <- Hst. unfold worker.
  apply download_file_other. rewrite Forall_forall in Hj. now apply Hj.
Qed.

Lemma download_all_frame_witness :
  Forall (fun j : job => j.1 <> Some (u "a.mp4"))
    [Examples.job_b; Examples.job_c]
  /\ (@download_all Excerpt.runtime Examples.lacks_a [1; 0]%nat
        [Examples.job_b; Examples.job_c] Examples.disk).2 !! u "a.mp4"
     = Examples.disk !! u "a.mp4".
Proof.
  assert (Forall (fun j : job => j.1 <> Some (u "a.mp4"))
            [Examples.job_b; Examples.job_c]) as Hj.
  { repeat constructor; discriminate. }
  split; [exact Hj|].
  apply (@download_all_frame Excerpt.runtime Examples.lacks_a [1; 0]%nat
           [Examples.job_b; Examples.job_c] Examples.disk (u "a.mp4") Hj).
Defined.


Section Written.
Context `{PyRuntime}.
Variable session : Session.

Lemma worker_written (name url : str) (fs : gmap str bytes) (r : response) :
  session url = Ok r ->
  (worker session (Some name, url) fs).1 = Ok tt ->
  (worker session (Some name, url) fs).2 !! name
  = Some (concat (iter_content r)).
Proof.
  intros Hr. unfold worker, download_file. simpl. rewrite Hr.
  destruct (raise_for_status r); [|discriminate].
  destruct (total_size r); [|discriminate].
  destruct (open_error name); [discriminate|].
  rewrite write_chunks_concat.
  destruct (stream_error r); [discriminate|].
  intros _. simpl. apply lookup_insert_eq.
Qed.

Lemma foldl_worker_other (run : list job) (fs : gmap str bytes)
    (other : str) :
  Forall (fun j => j.1 <> Some other) run ->
  foldl (fun st x => (worker session x st).2) fs run !! other = fs !! other.
Proof.
  intros Hr. revert fs. induction Hr as [|j run Hj Hr IH]; intros fs; simpl.
  - reflexivity.
  - rewrite IH. unfold worker. now apply download_file_other.
Qed.
End Written.

(** X22: when the pool returns, whatever the order of its chunks, a file
    that is the destination of one download only holds what the server
    sent for the URL of that download. *)
Theorem download_all_content `{PyRuntime} (session : Session)
    (order : list nat) (before after : list job) (name url : str)
    (fs : gmap str bytes) (results : list unit) (r : response) :
  order
  ≡ₚ seq 0 (length (chunks_of 4 (before ++ (Some name, url) :: after))) ->
  (download_all session order (before ++ (Some name, url) :: after) fs).1
  = Ok results ->
  Forall (fun j => j.1 <> Some name) (before ++ after) ->
  session url = Ok r ->
  (download_all session order (before ++ (Some name, url) :: after) fs).2
    !! name
  = Some (concat (iter_content r)).
Proof.
  intros Hp Hok Hu Hr. unfold download_all in *.
  pose proof (pool_map_outcome (worker session) 4 order _ fs Hp) as Ho.
  destruct (pool_map_state (worker session) 4 order _ fs results Hp Hok)
    as (run & Hrun & ->).
  destruct (pool_map (worker session) 4 order
              (before ++ (Some name, url) :: after) fs) as [[bs|e] fs'];
    [|discriminate].
  destruct Ho as [_ Hall].
  assert ((Some name, url) ∈ run) as Hin.
  { rewrite Hrun. apply elem_of_app. right. left. }
  apply list_elem_of_split in Hin as (a & b & ->).
  apply Permutation_app_inv in Hrun.
  rewrite <- Hrun in Hu. apply Forall_app in Hu as [Ha Hb].
  rewrite foldl_app. simpl.
  rewrite foldl_worker_other by exact Hb.
  apply worker_written; [exact Hr|].
  rewrite Forall_forall in Hall.
  destruct (Hall (Some name, url)) as (st & [] & st' & Hs).
  { apply elem_of_app. right. left. }
  rewrite (worker_outcome session _ _ st). now rewrite Hs.
Qed.

Lemma download_all_content_witness :
  [1; 0]%nat
  ≡ₚ seq 0 (length (chunks_of 4 ([Examples.job_b]
                                 ++ (Some (u "a.mp4"), u "http://x/a.mp4")
                                 :: [])))
  /\ (@download_all Excerpt.runtime Site.session [1; 0]%nat
        ([Examples.job_b] ++ (Some (u "a.mp4"), u "http://x/a.mp4") :: [])
        Examples.disk).1
     = Ok [tt; tt]
  /\ Forall (fun j : job => j.1 <> Some (u "a.mp4")) ([Examples.job_b] ++ [])
  /\ Site.session (u "http://x/a.mp4")
     = Ok (Examples.answer 200 [[Byte.x01; Byte.x02]; []; [Byte.x03]])
  /\ (@download_all Excerpt.runtime Site.session [1; 0]%nat
        ([Examples.job_b] ++ (Some (u "a.mp4"), u "http://x/a.mp4") :: [])
        Examples.disk).2 !! u "a.mp4"
     = Some (concat (iter_content
                       (Examples.answer 200
                          [[Byte.x01; Byte.x02]; []; [Byte.x03]]))).
Proof.
  assert ([1; 0]%nat ≡ₚ [0; 1]%nat) as Hp by apply Permutation_swap.
  assert (Forall (fun j : job => j.1 <> Some (u "a.mp4"))
            ([Examples.job_b] ++ [])) as Hu.
  { repeat constructor. discriminate. }
  split; [exact Hp|]. split; [vm_compute; reflexivity|].
  split; [exact Hu|]. split; [reflexivity|].
  apply (@download_all_content Excerpt.runtime Site.session [1; 0]%nat
           [Examples.job_b] [] (u "a.mp4") (u "http://x/a.mp4")
           Examples.disk [tt; tt]
           (Examples.answer 200 [[Byte.x01; Byte.x02]; []; [Byte.x03]])).
  - exact Hp.
  - vm_compute. reflexivity.
  - exact Hu.
  - reflexivity.
Defined.

(** ** The scan of [re.findall] *)

Lemma findall_pattern_url_sound_witness :
  (u "720", u "v")
  ∈ findall (@pattern_url Excerpt.runtime)
      (u "x" ++ quoted "url720" ++ u ": " ++ quoted "v")
  /\ exists before ws rest,
       u "x" ++ quoted "url720" ++ u ": " ++ quoted "v"
       = before ++ dquote :: u "url" ++ u "720" ++ dquote :: u ":" ++ ws
                ++ [dquote] ++ u "v" ++ [dquote] ++ rest
       /\ u "720" <> []
       /\ Forall (fun c => @isdecimal Excerpt.runtime c = true) (u "720")
       /\ Forall (fun c => isspace c = true) ws
       /\ u "v" <> [] /\ dquote ∉ u "v".
Proof.
  assert ((u "720", u "v")
          ∈ findall (@pattern_url Excerpt.runtime)
              (u "x" ++ quoted "url720" ++ u ": " ++ quoted "v")) as Hin.
  { vm_compute. left. }
  split; [exact Hin|].
  apply (@findall_pattern_url_sound Excerpt.runtime
           (u "x" ++ quoted "url720" ++ u ": " ++ quoted "v")
           (u "720") (u "v") Hin).
Defined.

Section Scan.
Context {G : Type}.
Variable pattern : str -> option (G * str).

Lemma findall_from_drop (skip : nat) (s : str) :
  findall_from pattern skip s = findall pattern (drop skip s).
Proof.
  revert skip. induction s as [|c s IH]; intros skip.
  - now destruct skip.
  - destruct skip as [|k]; [reflexivity|]. simpl. apply IH.
Qed.

(** A match takes a first part of the text, which is not empty. *)
Hypothesis pattern_consumes : forall s g rest,
  pattern s = Some (g, rest) -> exists m, m <> [] /\ s = m ++ rest.

Lemma findall_step (c : N) (s : str) :
  findall pattern (c :: s)
  = match pattern (c :: s) with
    | Some (g, rest) => g :: findall pattern rest
    | None => findall pattern s
    end.
Proof.
  unfold findall at 1. simpl.
  destruct (pattern (c :: s)) as [[g rest]|] eqn:Ep; [|reflexivity].
  f_equal. rewrite findall_from_drop. f_equal.
  destruct (pattern_consumes _ _ _ Ep) as (m & Hm & Hs).
  destruct m as [|c' m]; [contradiction|].
  injection Hs as _ ->.
  assert (forall k, k = length m -> drop k (m ++ rest) = rest) as Hd
    by (intros k ->; apply drop_app_length).
  apply Hd. simpl. rewrite length_app. lia.
Qed.
End Scan.

Lemma pattern_url_consumes `{PyRuntime} (s : str) (g : str * str)
    (rest : str) :
  pattern_url s = Some (g, rest) -> exists m, m <> [] /\ s = m ++ rest.
Proof.
  destruct g as [number value].
  intros (ws & -> & _)%pattern_url_app.
  exists (dquote :: u "url" ++ number ++ dquote :: u ":" ++ ws
          ++ [dquote] ++ value ++ [dquote]).
  split; [discriminate|].
  simpl. repeat (rewrite <- ?app_assoc; simpl). reflexivity.
Qed.

Lemma pattern_name_consumes (s value rest : str) :
  pattern_name s = Some (value, rest) -> exists m, m <> [] /\ s = m ++ rest.
Proof.
  unfold pattern_name.
  destruct (lit (dquote :: u "title") s) as [s1|] eqn:E1;
    [|cbn [mbind option_bind]; discriminate].
  cbn [mbind option_bind]. apply lit_app in E1 as ->.
  intros (ws & -> & _)%match_value_app.
  exists (dquote :: u "title" ++ dquote :: u ":" ++ ws
          ++ [dquote] ++ value ++ [dquote]).
  split; [discriminate|].
  simpl. repeat (rewrite <- ?app_assoc; simpl). reflexivity.
Qed.

(** X23: both patterns are searched from left to right without overlap:
    where the pattern matches, the match is reported and the search goes
    on after it; elsewhere it goes on at the next character. *)
Theorem findall_scan `{PyRuntime} (c : N) (s : str) :
  findall pattern_url (c :: s)
  = match pattern_url (c :: s) with
    | Some (g, rest) => g :: findall pattern_url rest
    | None => findall pattern_url s
    end
  /\ findall pattern_name (c :: s)
     = match pattern_name (c :: s) with
       | Some (g, rest) => g :: findall pattern_name rest
       | None => findall pattern_name s
       end.
Proof.
  split; apply findall_step.
  - apply pattern_url_consumes.
  - apply pattern_name_consumes.
Qed.

(** ** Titles that are file names already *)

(** X24: a title in normal form that is made of name characters, has no
    two hyphens in a row and neither begins nor ends with a hyphen or an
    underscore is its own file name. *)
Theorem sanitize_file_name `{PyRuntime} (x : str) :
  normalize_NFKC x = x ->
  Forall name_char x ->
  no_double_hyphen x = true ->
  begins_with hyphen_or_underscore x = false ->
  ends_with hyphen_or_underscore x = false ->
  sanitize x = x.
Proof.
  intros Hn Hc Hd Hb He. unfold sanitize. rewrite Hn.
  rewrite filter_id.
  2:{ eapply Forall_impl; [exact Hc|]. apply name_char_kept. }
  rewrite sub_runs_id by (trivial; discriminate).
  apply strip_id.
  - intros c Hh. unfold begins_with in Hb. now rewrite Hh in Hb.
  - intros c Hl. unfold ends_with in He. now rewrite Hl in He.
Qed.

Lemma sanitize_file_name_witness :
  @normalize_NFKC Excerpt.runtime (u "My-Clip_2") = u "My-Clip_2"
  /\ Forall (@name_char Excerpt.runtime) (u "My-Clip_2")
  /\ no_double_hyphen (u "My-Clip_2") = true
  /\ begins_with hyphen_or_underscore (u "My-Clip_2") = false
  /\ ends_with hyphen_or_underscore (u "My-Clip_2") = false
  /\ @sanitize Excerpt.runtime (u "My-Clip_2") = u "My-Clip_2".
Proof.
  assert (Forall (@name_char Excerpt.runtime) (u "My-Clip_2")) as Hc.
  { repeat (apply List.Forall_cons;
              [ first [ left; reflexivity
                      | right; split; [reflexivity|];
                        split; [reflexivity | discriminate] ] |]).
    apply List.Forall_nil. }
  split; [reflexivity|]. split; [exact Hc|].
  split; [reflexivity|]. split; [reflexivity|]. split; [reflexivity|].
  apply (@sanitize_file_name Excerpt.runtime (u "My-Clip_2"));
    [reflexivity | exact Hc | reflexivity | reflexivity | reflexivity].
Defined.

(** ** A run from the page to the file *)

Lemma download_all_one `{PyRuntime} (session : Session) (j : job)
    (fs : gmap str bytes) :
  download_all session [0%nat] [j] fs
  = match worker session j fs with
    | (Ok b, fs') => (Ok [b], fs')
    | (Raise e, fs') => (Raise e, fs')
    end.
Proof.
  unfold download_all, pool_map.
  change (chunks_of 4 [j]) with [[j]]. simpl.
  destruct (worker session j fs) as [[b|e] fs']; [|reflexivity].
  simpl. reflexivity.
Qed.

(** X25: the run on one page that offers a single resolution, when the
    server sends the file without error. Nothing is read. When [open]
    accepts the file name, the file named by the sanitized title holds the
    bytes sent for the unescaped URL and the run ends without exception;
    when [open] refuses it, as for a title too long for a file name, the
    run ends with that exception and no file is written. *)
Theorem main_one_video `{PyRuntime} (session : Session) (path raw : str)
    (name : str) (resolution n : Z) (c c1 : console) (fs : gmap str bytes)
    (r : response) :
  get_videos session path c
  = (Ok ({[ resolution := raw ]}, Some name), c1) ->
  session (unescape raw) = Ok r ->
  raise_for_status r = Ok tt ->
  total_size r = Some n ->
  stream_error r = None ->
  main session [0%nat] [path] c fs
  = match open_error name with
    | Some e => (Raise e, print Downloading c1, fs)
    | None =>
        (Ok tt, print Downloading c1,
         <[name := concat (iter_content r)]> fs)
    end.
Proof.
  intros Hg Hr Hs Hn He. unfold main. simpl. rewrite Hg.
  unfold main_body. rewrite map_size_singleton, map_to_list_singleton. simpl.
  rewrite download_all_one. unfold worker. simpl.
  rewrite (download_file_written session name (unescape raw) fs r n Hr Hs Hn).
  destruct (open_error name); [reflexivity|]. now rewrite He.
Qed.

Lemma main_one_video_witness :
  @get_videos Excerpt.runtime Site.session (u "good") Examples.quiet
  = (Ok ({[ 720%Z := u "http:\/\/x\/a.mp4" ]}, Some (u "t.mp4")),
     print (GettingVideos (u "good")) Examples.quiet)
  /\ Site.session (unescape (u "http:\/\/x\/a.mp4"))
     = Ok (Examples.answer 200 [[Byte.x01; Byte.x02]; []; [Byte.x03]])
  /\ raise_for_status
       (Examples.answer 200 [[Byte.x01; Byte.x02]; []; [Byte.x03]]) = Ok tt
  /\ @total_size Excerpt.runtime
       (Examples.answer 200 [[Byte.x01; Byte.x02]; []; [Byte.x03]])
     = Some 0%Z
  /\ stream_error
       (Examples.answer 200 [[Byte.x01; Byte.x02]; []; [Byte.x03]]) = None
  /\ @main Excerpt.runtime Site.session [0%nat] [u "good"] Examples.quiet ∅
     = (Ok tt,
        print Downloading (print (GettingVideos (u "good")) Examples.quiet),
        <[u "t.mp4" :=
            concat (iter_content
                      (Examples.answer 200
                         [[Byte.x01; Byte.x02]; []; [Byte.x03]]))]> ∅).
Proof.
  split; [vm_compute; reflexivity|]. repeat (split; [reflexivity|]).
  apply (@main_one_video Excerpt.runtime Site.session (u "good")
           (u "http:\/\/x\/a.mp4") (u "t.mp4") 720%Z 0%Z Examples.quiet
           (print (GettingVideos (u "good")) Examples.quiet) ∅
           (Examples.answer 200 [[Byte.x01; Byte.x02]; []; [Byte.x03]]));
    [vm_compute; reflexivity | reflexivity ..].
Defined.

(** ** When the input is read *)

Lemma main_loop_stdin `{PyRuntime} (session : Session) (paths : list str)
    (c : console) (download_files : list job) :
  (forall path videos filename,
     path ∈ paths ->
     (get_videos session path c).1 = Ok (videos, filename) ->
     (size videos <= 1)%nat) ->
  stdin (main_loop session paths c download_files).2 = stdin c.
Proof.
  revert c download_files.
  induction paths as [|path paths IH]; intros c download_files Hp; simpl.
  - reflexivity.
  - pose proof (get_videos_prints session path c c) as [Hc _].
    pose proof (Hp path) as Hpath.
    destruct (get_videos session path c) as [[[videos filename]|e] c1];
      simpl in Hc; subst c1; [|reflexivity].
    specialize (Hpath videos filename ltac:(left) eq_refl).
    assert (forall c2, stdin c2 = stdin c ->
              forall found,
                stdin (main_loop session paths c2 found).2 = stdin c) as Hnext.
    { intros c2 Hc2 found. rewrite IH; [exact Hc2|].
      intros p v f Hin Hv. apply (Hp p v f); [now right|].
      rewrite <- Hv. apply get_videos_prints. }
    unfold main_body. case_bool_decide as Hs.
    + now apply Hnext.
    + rewrite bool_decide_eq_false_2 by lia.
      destruct (map_to_list videos).*2 as [|url l]; [reflexivity|].
      now apply Hnext.
Qed.

(** X26: when no page offers more than one resolution, the loop over the
    pages reads nothing from the input, whatever its outcome. *)
Theorem main_loop_reads_nothing `{PyRuntime} (session : Session)
    (paths : list str) (c : console) (download_files : list job) :
  (forall path videos filename,
     path ∈ paths ->
     (get_videos session path c).1 = Ok (videos, filename) ->
     (size videos <= 1)%nat) ->
  stdin (main_loop session paths c download_files).2 = stdin c.
Proof. apply main_loop_stdin. Qed.

Lemma main_loop_reads_nothing_witness :
  (forall path videos filename,
     path ∈ [u "good"; u "none"] ->
     (@get_videos Excerpt.runtime Site.session path
        {| stdin := [u "720"]; stdout := [] |}).1
     = Ok (videos, filename) ->
     (size videos <= 1)%nat)
  /\ stdin (@main_loop Excerpt.runtime Site.session [u "good"; u "none"]
              {| stdin := [u "720"]; stdout := [] |} []).2
     = stdin {| stdin := [u "720"]; stdout := [] |}.
Proof.
  assert (forall path videos filename,
            path ∈ [u "good"; u "none"] ->
            (@get_videos Excerpt.runtime Site.session path
               {| stdin := [u "720"]; stdout := [] |}).1
            = Ok (videos, filename) ->
            (size videos <= 1)%nat) as Hp.
  { intros path videos filename Hin.
    apply elem_of_cons in Hin as [->|Hin].
    - intros E. vm_compute in E. injection E as <- _. vm_compute. lia.
    - apply elem_of_cons in Hin as [->|Hin]; [|inversion Hin].
      intros E. vm_compute in E. injection E as <- _. vm_compute. lia. }
  split; [exact Hp|].
  apply (@main_loop_reads_nothing Excerpt.runtime Site.session
           [u "good"; u "none"] {| stdin := [u "720"]; stdout := [] |} [] Hp).
Defined.
